(** * Mortgage-App: the client in [App] (result aggregation, validation badge,
    export, submission life cycle), embedded from the JavaScript source.

    JavaScript values are modelled as a tree type [JsVal]; numbers are IEEE
    binary64 values, as in the language, through Rocq's primitive floats.
    React state ([useState]) is a record threaded through a small monad
    together with what the code reads from its environment: the clock
    ([Date.now()]), the random generator ([Math.random()]) and the network. *)

From Stdlib Require Import List String Ascii ZArith Bool Lia Floats DecimalString.
From Stdlib Require Import Permutation Sorted.
Import ListNotations.
Set Warnings "-register-all,-inexact-float".
Local Open Scope string_scope.
Local Open Scope list_scope.

(** ** JavaScript values *)

(** A JavaScript value as the program meets it: what [JSON.parse] builds from
    a response body, plus [undefined], the result of reading a property that
    is not there.  The pairs of a [JObj] are the object's own properties in
    enumeration order (the order [Object.entries] walks). *)
Inductive JsVal : Type :=
| JUndefined
| JNull
| JBool (b : bool)
| JNum (x : float)
| JStr (s : string)
| JArr (elems : list JsVal)
| JObj (props : list (string * JsVal)).

(** ToBoolean: [undefined], [null], [false], [0], [-0], [NaN] and the empty
    string are falsy, everything else (every object and array) is truthy. *)
Definition truthy (v : JsVal) : bool :=
  match v with
  | JUndefined | JNull => false
  | JBool b => b
  | JNum x => negb (PrimFloat.eqb x 0 || PrimFloat.is_nan x)
  | JStr s => negb (String.eqb s "")
  | JArr _ | JObj _ => true
  end.

(** [lookup k props]: the value of own property [k], [undefined] when there is
    none. *)
Definition lookup (k : string) (props : list (string * JsVal)) : JsVal :=
  match find (fun p => String.eqb (fst p) k) props with
  | Some p => snd p
  | None => JUndefined
  end.

(** What a JavaScript exception carries for this program: the handler of
    [onDrop] reads [err.code], [err.response?.status] and [err.message]. *)
Record Response : Type := mkResponse { status : Z }.

Record JsError : Type := mkJsError {
  code : option string;
  response : option Response;
  message : string
}.

(** The result of evaluating an expression: a value or a thrown exception. *)
Inductive Completion (A : Type) : Type :=
| Normal (a : A)
| Throw (e : JsError).
Arguments Normal {A} a.
Arguments Throw {A} e.

(** The message of the TypeError raised when a property is read from [null] or
    [undefined] (the wording is the engine's; V8's is used here). *)
Definition TypeError_reading (v : JsVal) (k : string) : JsError :=
  let what := match v with JNull => "null" | _ => "undefined" end in
  mkJsError None None
    (String.append "Cannot read properties of "
       (String.append what (String.append " (reading '" (String.append k "')")))).

(** [v.k] for the property names this program reads ([renamed], [category],
    [subcategory], [text], [metadata], [id_validation], [date_validation],
    [error], [is_valid]): none of them exists on a primitive or on an array,
    so only a [JObj] can answer with something else than [undefined]; reading
    from [null] or [undefined] throws. *)
Definition Get (v : JsVal) (k : string) : Completion JsVal :=
  match v with
  | JUndefined | JNull => Throw (TypeError_reading v k)
  | JObj props => Normal (lookup k props)
  | JBool _ | JNum _ | JStr _ | JArr _ => Normal JUndefined
  end.

(** [v?.k]: optional chaining answers [undefined] on [null] and [undefined]
    instead of throwing. *)
Definition OptGet (v : JsVal) (k : string) : JsVal :=
  match v with
  | JUndefined | JNull => JUndefined
  | JObj props => lookup k props
  | JBool _ | JNum _ | JStr _ | JArr _ => JUndefined
  end.

(** [v === false]. *)
Definition strict_eq_false (v : JsVal) : bool :=
  match v with
  | JBool false => true
  | _ => false
  end.

(** ** Records of the collection *)

(** The object literal built by [onDrop] for one entry of a response.  [id] is
    a number; [hasError] is always a boolean ([data.error ? true : false]);
    the other fields hold whatever the response held. *)
Record File : Type := mkFile {
  id : float;
  originalName : string;
  renamed : JsVal;
  category : JsVal;
  subcategory : JsVal;
  preview : JsVal;
  metadata : JsVal;
  idValidation : JsVal;
  dateValidation : JsVal;
  hasError : bool;
  fileError : JsVal   (* the field [error] of the record; [error] below is the state variable *)
}.

(** ** Validation presenter: [getValidationIcon] *)

(** The four elements [getValidationIcon] can return. *)
Inductive Icon : Type :=
| AlertCircle_red      (* <AlertCircle className="w-4 h-4 text-red-500" /> *)
| CheckCircle_green    (* <CheckCircle className="w-4 h-4 text-green-500" /> *)
| AlertCircle_yellow   (* <AlertCircle className="w-4 h-4 text-yellow-500" /> *)
| Clock_gray.          (* <Clock className="w-4 h-4 text-gray-400" /> *)

Definition getValidationIcon (file : File) : Icon :=
  if hasError file then AlertCircle_red
  else if truthy (OptGet (idValidation file) "is_valid")
          || truthy (OptGet (dateValidation file) "is_valid")
  then CheckCircle_green
  else if strict_eq_false (OptGet (idValidation file) "is_valid")
          || strict_eq_false (OptGet (dateValidation file) "is_valid")
  then AlertCircle_yellow
  else Clock_gray.

(** The presentation status each icon stands for. *)
Inductive PresentationStatus : Type :=
| Error | Validated | PartiallyInvalid | Pending.

Definition status_of_icon (i : Icon) : PresentationStatus :=
  match i with
  | AlertCircle_red => Error
  | CheckCircle_green => Validated
  | AlertCircle_yellow => PartiallyInvalid
  | Clock_gray => Pending
  end.

Definition presentationStatus (file : File) : PresentationStatus :=
  status_of_icon (getValidationIcon file).

(** The data model's typing of a validation verdict: the validation is
    optional, and [is_valid], where it is there, is a boolean. *)
Definition is_valid_typed (validation : JsVal) : Prop :=
  OptGet validation "is_valid" = JUndefined \/
  exists b : bool, OptGet validation "is_valid" = JBool b.

(** ** The world the component runs in *)

(** A browser [File] as the drop zone and the form data see it. *)
Record FileBlob : Type := mkFileBlob {
  blob_name : string;
  blob_type : string;   (* declared MIME type *)
  blob_size : Z         (* bytes *)
}.

(** One call of [axios.post(url, formData, config)]. *)
Record Request : Type := mkRequest {
  url : string;
  formData : list (string * FileBlob);
  content_type : string;
  timeout : Z           (* milliseconds *)
}.

(** How the promise of [axios.post] settles: fulfilled with a response whose
    [data] is the parsed body, or rejected with an error. *)
Inductive Settled : Type :=
| Fulfilled (data : JsVal)
| Rejected (err : JsError).

(** The four [useState] cells of [App]. *)
Record State : Type := mkState {
  files : list File;
  loading : bool;
  error : option string;          (* [null] is [None] *)
  selectedFile : option File      (* [null] is [None] *)
}.

(** The state together with the environment: the requests sent so far (oldest
    first), and the values the clock and the random generator answer, call by
    call. *)
Record World : Type := mkWorld {
  state : State;
  requests : list Request;
  Date_now : nat -> float;
  now_calls : nat;
  Math_random : nat -> float;
  random_calls : nat
}.

Definition with_state (f : State -> State) (w : World) : World :=
  mkWorld (f (state w)) (requests w)
          (Date_now w) (now_calls w) (Math_random w) (random_calls w).

(** ** A monad for handlers: state and exceptions *)

Definition M (A : Type) : Type := World -> Completion A * World.

Definition ret {A : Type} (a : A) : M A := fun w => (Normal a, w).

Definition bind {A B : Type} (m : M A) (k : A -> M B) : M B :=
  fun w =>
    match m w with
    | (Normal a, w') => k a w'
    | (Throw e, w') => (Throw e, w')
    end.

Notation "x <- m ;; k" := (bind m (fun x => k))
  (at level 61, m at next level, right associativity).
Notation "m ;; k" := (bind m (fun _ => k))
  (at level 61, right associativity).

Definition lift {A : Type} (c : Completion A) : M A := fun w => (c, w).

(** [try { body } catch (err) { handler err } finally { fin }]. *)
Definition try_catch_finally {A : Type}
    (body : M A) (handler : JsError -> M A) (fin : M unit) : M A :=
  fun w =>
    let '(r, w1) :=
      match body w with
      | (Normal a, w') => (Normal a, w')
      | (Throw e, w') => handler e w'
      end in
    match fin w1 with
    | (Normal _, w2) => (r, w2)
    | (Throw e, w2) => (Throw e, w2)
    end.

Fixpoint mapM {A B : Type} (f : A -> M B) (l : list A) : M (list B) :=
  match l with
  | [] => ret []
  | a :: l' => b <- f a ;; bs <- mapM f l' ;; ret (b :: bs)
  end.

(** The world a handler leaves behind. *)
Definition exec {A : Type} (m : M A) (w : World) : World := snd (m w).

(** State setters.  [setFiles] is only ever called with an updater function. *)
Definition setFiles (update : list File -> list File) : M unit :=
  fun w => (Normal tt,
            with_state (fun s => mkState (update (files s)) (loading s) (error s) (selectedFile s)) w).

Definition setLoading (b : bool) : M unit :=
  fun w => (Normal tt,
            with_state (fun s => mkState (files s) b (error s) (selectedFile s)) w).

Definition setError (e : option string) : M unit :=
  fun w => (Normal tt,
            with_state (fun s => mkState (files s) (loading s) e (selectedFile s)) w).

Definition setSelectedFile (f : option File) : M unit :=
  fun w => (Normal tt,
            with_state (fun s => mkState (files s) (loading s) (error s) f) w).

(** [Date.now()] and [Math.random()]: the next value of the environment. *)
Definition call_Date_now : M float :=
  fun w => (Normal (Date_now w (now_calls w)),
            mkWorld (state w) (requests w)
                    (Date_now w) (S (now_calls w)) (Math_random w) (random_calls w)).

Definition call_Math_random : M float :=
  fun w => (Normal (Math_random w (random_calls w)),
            mkWorld (state w) (requests w)
                    (Date_now w) (now_calls w) (Math_random w) (S (random_calls w))).

(** [axios.post]: the request leaves. *)
Definition axios_post (req : Request) : M unit :=
  fun w => (Normal tt,
            mkWorld (state w) (requests w ++ [req])
                    (Date_now w) (now_calls w) (Math_random w) (random_calls w)).

(** [await]: the value of a fulfilled promise, the error of a rejected one
    thrown. *)
Definition await (p : Settled) : M JsVal :=
  match p with
  | Fulfilled data => ret data
  | Rejected err => lift (Throw err)
  end.

(** ** Ingestion: [onDrop] *)

Definition API_BASE_URL : string := "http://localhost:8000".

(** The decimal name of an array index, and the entries of an array-like. *)
Definition index_key (i : nat) : string := NilEmpty.string_of_uint (Nat.to_uint i).

Fixpoint indexed {A : Type} (i : nat) (l : list A) : list (string * A) :=
  match l with
  | [] => []
  | a :: l' => (index_key i, a) :: indexed (S i) l'
  end.

(** The UTF-16 code units of a JavaScript string.  A string is held here by
    its bytes in UTF-8: one byte, or a sequence of two or three bytes, is one
    code unit; a sequence of four bytes is a character beyond U+FFFF, two
    code units (a high and a low surrogate, each written on three bytes as
    any other unit from U+0800 up).  A byte that starts no well-formed
    sequence, which no JavaScript string yields, counts as one unit. *)
Definition is_continuation (c : ascii) : bool :=
  (128 <=? N_of_ascii c)%N && (N_of_ascii c <? 192)%N.

Definition unit_string (u : N) : string :=
  String (ascii_of_N (224 + u / 4096))
    (String (ascii_of_N (128 + (u / 64) mod 64))
       (String (ascii_of_N (128 + u mod 64)) "")).

Fixpoint code_units (l : list ascii) : list string :=
  match l with
  | [] => []
  | b0 :: r0 =>
      if (N_of_ascii b0 <? 192)%N then String b0 "" :: code_units r0
      else
        match r0 with
        | [] => [String b0 ""]
        | b1 :: r1 =>
            if negb (is_continuation b1) then String b0 "" :: code_units r0
            else if (N_of_ascii b0 <? 224)%N then String b0 (String b1 "") :: code_units r1
            else
              match r1 with
              | [] => String b0 "" :: code_units r0
              | b2 :: r2 =>
                  if negb (is_continuation b2) then String b0 "" :: code_units r0
                  else if (N_of_ascii b0 <? 240)%N
                  then String b0 (String b1 (String b2 "")) :: code_units r2
                  else
                    match r2 with
                    | [] => String b0 "" :: code_units r0
                    | b3 :: r3 =>
                        if negb (is_continuation b3) then String b0 "" :: code_units r0
                        else
                          let point := ((N_of_ascii b0 mod 8) * 262144
                                        + (N_of_ascii b1 mod 64) * 4096
                                        + (N_of_ascii b2 mod 64) * 64
                                        + N_of_ascii b3 mod 64)%N in
                          unit_string (55296 + (point - 65536) / 1024)
                            :: unit_string (56320 + (point - 65536) mod 1024)
                            :: code_units r3
                    end
              end
        end
  end.

(** [Object.entries(v)]: the own enumerable properties, in order.  It throws
    on [null] and [undefined]; a string answers with its code units, an array
    with its elements, a number or a boolean with nothing. *)
Definition Object_entries (v : JsVal) : Completion (list (string * JsVal)) :=
  match v with
  | JUndefined | JNull =>
      Throw (mkJsError None None "Cannot convert undefined or null to object")
  | JObj props => Normal props
  | JArr elems => Normal (indexed 0 elems)
  | JStr s => Normal (indexed 0 (map JStr (code_units (list_ascii_of_string s))))
  | JBool _ | JNum _ => Normal []
  end.

(** The callback of [.map] at lines 38-50: one record per entry.  The fields
    are evaluated in the order of the object literal, [id] first. *)
Definition newFile (entry : string * JsVal) : M File :=
  let '(name, data) := entry in
  now <- call_Date_now ;;
  rnd <- call_Math_random ;;
  v_renamed <- lift (Get data "renamed") ;;
  v_category <- lift (Get data "category") ;;
  v_subcategory <- lift (Get data "subcategory") ;;
  v_text <- lift (Get data "text") ;;
  v_metadata <- lift (Get data "metadata") ;;
  v_id_validation <- lift (Get data "id_validation") ;;
  v_date_validation <- lift (Get data "date_validation") ;;
  v_error <- lift (Get data "error") ;;
  v_error' <- lift (Get data "error") ;;
  ret (mkFile (PrimFloat.add now rnd)                                (* Date.now() + Math.random() *)
              name
              v_renamed
              v_category
              v_subcategory
              v_text
              (if truthy v_metadata then v_metadata else JObj [])   (* data.metadata || {} *)
              v_id_validation
              v_date_validation
              (if truthy v_error then true else false)              (* data.error ? true : false *)
              v_error').

(** The [catch] block, lines 53-63 ([console.error] only logs). *)
Definition onDrop_catch (err : JsError) : M unit :=
  if match code err with Some c => String.eqb c "ECONNABORTED" | None => false end
  then setError (Some "Request timeout - please try with smaller files or fewer files at once")
  else if match response err with Some r => Z.eqb (status r) 422 | None => false end
  then setError (Some "Invalid file format - please upload PDF, PNG, JPG, or JPEG files")
  else if match response err with Some r => Z.leb 500 (status r) | None => false end
  then setError (Some "Server error - please check if the backend is running")
  else setError (Some (String.append "Classification failed: " (message err))).

(** [onDrop] up to its [await]: lines 24-36.  The [try] block is entered
    just before the request leaves, and nothing in it can throw before the
    promise settles. *)
Definition onDrop_send (acceptedFiles : list FileBlob) : M unit :=
  setLoading true ;;
  setError None ;;
  let formData := map (fun file => ("files", file)) acceptedFiles in
  axios_post (mkRequest (String.append API_BASE_URL "/classify")
                        formData "multipart/form-data" 30000).

(** [onDrop] from the moment the promise settles: lines 33-66. *)
Definition onDrop_settle (settled : Settled) : M unit :=
  try_catch_finally
    (data <- await settled ;;
     entries <- lift (Object_entries data) ;;
     newFiles <- mapM newFile entries ;;
     setFiles (fun prev => prev ++ newFiles))
    onDrop_catch
    (setLoading false).

(** A submission that nothing interrupts while it waits. *)
Definition onDrop (acceptedFiles : list FileBlob) (settled : Settled) : M unit :=
  onDrop_send acceptedFiles ;; onDrop_settle settled.

(** ** The other handlers *)

(** [clearFiles], lines 79-82. *)
Definition clearFiles : M unit :=
  setFiles (fun _ => []) ;;
  setError None.

(** [f.id !== fileId] on numbers. *)
Definition id_differs (fileId : float) (f : File) : bool :=
  negb (PrimFloat.eqb (id f) fileId).

(** [removeFile], lines 84-86.  The body is a block with no [return]: the
    call evaluates to [undefined]. *)
Definition removeFile (fileId : float) : M JsVal :=
  setFiles (fun prev => filter (id_differs fileId) prev) ;;
  ret JUndefined.

(** What the user can do besides dropping files: the [onClick] handlers at
    lines 180, 200, 299, 306 and 329. *)
Inductive UiEvent : Type :=
| ClickDismissError
| ClickClearAll
| ClickPreview (file : File)
| ClickRemove (fileId : float)
| ClickClosePreview.

Definition handle (ev : UiEvent) : M unit :=
  match ev with
  | ClickDismissError => setError None
  | ClickClearAll => clearFiles
  | ClickPreview file => setSelectedFile (Some file)
  | ClickRemove fileId => removeFile fileId ;; ret tt
  | ClickClosePreview => setSelectedFile None
  end.

Fixpoint handle_all (evs : list UiEvent) : M unit :=
  match evs with
  | [] => ret tt
  | ev :: evs' => handle ev ;; handle_all evs'
  end.

(** Submissions one after the other, each settled before the next starts. *)
Fixpoint onDrop_all (drops : list (list FileBlob * Settled)) : M unit :=
  match drops with
  | [] => ret tt
  | (acceptedFiles, settled) :: drops' =>
      onDrop acceptedFiles settled ;; onDrop_all drops'
  end.

(** ** The drop zone: [useDropzone], lines 69-77 *)

(** The [accept] option: MIME types with their file extensions. *)
Definition accept : list (string * list string) :=
  [ ("application/pdf", [".pdf"]);
    ("image/*", [".png"; ".jpg"; ".jpeg"; ".tiff"; ".bmp"]) ].

(** The [maxSize] option: 10MB limit per file. *)
Definition maxSize : Z := 10 * 1024 * 1024.

Section Dropzone.

(** The drop-zone library's test of one file against an [accept] option; the
    component only hands it the table above. *)
Variable attr_accept : list (string * list string) -> FileBlob -> bool.

(** A selected file reaches [onDrop] when its type passes [accept] and its
    size is at most [maxSize]; the others go to the rejections, which this
    component never reads. *)
Definition fileAccepted (file : FileBlob) : bool :=
  attr_accept accept file && (blob_size file <=? maxSize)%Z.

(** The library calls the [onDrop] option with the accepted files of every
    selection ([multiple: true]: any number of them). *)
Definition useDropzone_drop (selected : list FileBlob) (settled : Settled) : M unit :=
  onDrop (filter fileAccepted selected) settled.

End Dropzone.

(** ** Export: [downloadResults], lines 88-109 *)

(** A JSON document: what [JSON.stringify] writes down (its text is this tree
    printed with an indentation of two spaces; the printing is not modelled). *)
Inductive Json : Type :=
| JsonNull
| JsonBool (b : bool)
| JsonNum (x : float)
| JsonStr (s : string)
| JsonArr (elems : list Json)
| JsonObj (members : list (string * Json)).

(** SerializeJSONProperty of ECMAScript, on the values of [JsVal]: [None] is
    [undefined].  A property whose value is [undefined] is left out of its
    object; an [undefined] element of an array is written [null]; a number
    that is not finite is written [null]. *)
Fixpoint SerializeJSONProperty (v : JsVal) : option Json :=
  match v with
  | JUndefined => None
  | JNull => Some JsonNull
  | JBool b => Some (JsonBool b)
  | JNum x => Some (if PrimFloat.is_nan x || PrimFloat.is_infinity x then JsonNull else JsonNum x)
  | JStr s => Some (JsonStr s)
  | JArr elems =>
      Some (JsonArr (map (fun e => match SerializeJSONProperty e with
                                   | Some j => j
                                   | None => JsonNull
                                   end) elems))
  | JObj props =>
      Some (JsonObj ((fix members (ps : list (string * JsVal)) : list (string * Json) :=
                        match ps with
                        | [] => []
                        | (k, pv) :: ps' =>
                            match SerializeJSONProperty pv with
                            | Some j => (k, j) :: members ps'
                            | None => members ps'
                            end
                        end) props))
  end.

(** [JSON.stringify(value, null, 2)]. *)
Definition JSON_stringify (v : JsVal) : option Json := SerializeJSONProperty v.

(** The instant [new Date()] denotes, by its UTC fields as [toISOString]
    prints them ([utc_month] counts from 1). *)
Record DateUTC : Type := mkDateUTC {
  utc_year : Z;
  utc_month : Z;
  utc_day : Z;
  utc_hours : Z;
  utc_minutes : Z;
  utc_seconds : Z;
  utc_milliseconds : Z
}.

Definition digit (n : Z) : ascii := ascii_of_nat (48 + Z.to_nat (n mod 10)).

(** [n] in decimal on [k] digits, zero-padded. *)
Fixpoint pad (k : nat) (n : Z) : string :=
  match k with
  | O => ""
  | S k' => String.append (pad k' (n / 10)) (String (digit n) "")
  end.

(** [Date.prototype.toISOString]: YYYY-MM-DDTHH:mm:ss.sssZ, the year on four
    digits from 0 to 9999 and on six digits with a sign outside. *)
Definition toISOString (d : DateUTC) : string :=
  String.concat ""
    [ (if (0 <=? utc_year d)%Z && (utc_year d <=? 9999)%Z then pad 4 (utc_year d)
       else String.append (if (utc_year d <? 0)%Z then "-" else "+") (pad 6 (Z.abs (utc_year d))));
      "-"; pad 2 (utc_month d); "-"; pad 2 (utc_day d);
      "T"; pad 2 (utc_hours d); ":"; pad 2 (utc_minutes d); ":"; pad 2 (utc_seconds d);
      "."; pad 3 (utc_milliseconds d); "Z" ].

(** [s.split('T')[0]]: what stands before the first T. *)
Fixpoint before_T (s : string) : string :=
  match s with
  | EmptyString => ""
  | String c s' => if Ascii.eqb c "T" then "" else String c (before_T s')
  end.

(** The object literal of lines 89-99. *)
Definition export_entry (file : File) : JsVal :=
  JObj [ ("original_name", JStr (originalName file));
         ("renamed", renamed file);
         ("category", category file);
         ("subcategory", subcategory file);
         ("metadata", metadata file);
         ("validation", JObj [ ("id_validation", idValidation file);
                               ("date_validation", dateValidation file) ]) ].

(** What the browser is asked to save. *)
Record Download : Type := mkDownload {
  content : option Json;     (* the blob's text, [dataStr] *)
  content_type_of : string;  (* the blob's type *)
  download : string          (* [link.download], the suggested file name *)
}.

(** [downloadResults] on the [files] of the state, at the instant [today]
    that [new Date()] reads. *)
Definition downloadResults (files : list File) (today : DateUTC) : Download :=
  let results := JArr (map export_entry files) in
  let dataStr := JSON_stringify results in
  mkDownload dataStr "application/json"
    (String.concat ""
       [ "mortgage_classification_results_"; before_T (toISOString today); ".json" ]).

(** ** Notions of the specification *)

(** The normalized failures of a submission. *)
Inductive GatewayError : Type :=
| Timeout
| UnsupportedFormat
| ServerUnavailable
| Other (msg : string).

(** The decision of the [catch] block, as a function of the caught error: an
    error whose [code] is ECONNABORTED is a timeout; then the status of the
    response decides, 422 first. *)
Definition gateway_error (err : JsError) : GatewayError :=
  match code err, response err with
  | Some c, resp =>
      if String.eqb c "ECONNABORTED" then Timeout
      else match resp with
           | Some r => if (status r =? 422)%Z then UnsupportedFormat
                       else if (500 <=? status r)%Z then ServerUnavailable
                       else Other (message err)
           | None => Other (message err)
           end
  | None, Some r => if (status r =? 422)%Z then UnsupportedFormat
                    else if (500 <=? status r)%Z then ServerUnavailable
                    else Other (message err)
  | None, None => Other (message err)
  end.

(** The message the user reads for each normalized failure. *)
Definition user_message (g : GatewayError) : string :=
  match g with
  | Timeout => "Request timeout - please try with smaller files or fewer files at once"
  | UnsupportedFormat => "Invalid file format - please upload PDF, PNG, JPG, or JPEG files"
  | ServerUnavailable => "Server error - please check if the backend is running"
  | Other msg => String.append "Classification failed: " msg
  end.

(** The record the data model's renaming makes of one entry [name: data] of a
    response, under the identifier [fid]: text to preview, id_validation to
    idValidation, date_validation to dateValidation, error to hasError and
    error, metadata defaulting to the empty object. *)
Definition renamed_entry (fid : float) (name : string) (data : JsVal) : File :=
  mkFile fid name
         (OptGet data "renamed") (OptGet data "category") (OptGet data "subcategory")
         (OptGet data "text")
         (if truthy (OptGet data "metadata") then OptGet data "metadata" else JObj [])
         (OptGet data "id_validation") (OptGet data "date_validation")
         (truthy (OptGet data "error")) (OptGet data "error").

(** The records of a whole response, the [k]-th under the identifier made of
    the [k]-th answers of the clock and of the random generator from call
    numbers [i] and [j] on. *)
Fixpoint renamed_entries (clock rng : nat -> float) (i j : nat)
    (entries : list (string * JsVal)) : list File :=
  match entries with
  | [] => []
  | (name, data) :: entries' =>
      renamed_entry (PrimFloat.add (clock i) (rng j)) name data
        :: renamed_entries clock rng (S i) (S j) entries'
  end.

(** An entry whose fields can be read: anything but [null] (and [undefined],
    which no JSON body holds). *)
Definition readable (data : JsVal) : Prop := data <> JNull /\ data <> JUndefined.

(** A member of a JSON object for a property, when its value is not
    [undefined]. *)
Definition member (k : string) (v : JsVal) : list (string * Json) :=
  match SerializeJSONProperty v with
  | Some j => [(k, j)]
  | None => []
  end.

(** The exported element of a record: the members are those of
    [export_entry] whose value is there, in the order of the literal. *)
Definition exported_validation (file : File) : Json :=
  JsonObj (member "id_validation" (idValidation file)
           ++ member "date_validation" (dateValidation file)).

Definition exported (file : File) : Json :=
  JsonObj ([("original_name", JsonStr (originalName file))]
           ++ member "renamed" (renamed file)
           ++ member "category" (category file)
           ++ member "subcategory" (subcategory file)
           ++ member "metadata" (metadata file)
           ++ [("validation", exported_validation file)]).

(** The members of a JSON object. *)
Definition members (j : Json) : list (string * Json) :=
  match j with
  | JsonObj ms => ms
  | _ => []
  end.

(** An element with exactly the six fields of the export schema, the
    validation holding exactly its two. *)
Definition has_all_fields (j : Json) : Prop :=
  exists n r c s m iv dv : Json,
    j = JsonObj [ ("original_name", n); ("renamed", r); ("category", c);
                  ("subcategory", s); ("metadata", m);
                  ("validation", JsonObj [("id_validation", iv); ("date_validation", dv)]) ].

(** The names of the members of a JSON object. *)
Definition member_names (j : Json) : list string := map fst (members j).

(** The preview never dangles: it is closed or shows a record of the
    collection. *)
Definition preview_in_collection (s : State) : Prop :=
  match selectedFile s with
  | None => True
  | Some f => In f (files s)
  end.

(** Pairwise distinct identifiers, under the comparison [removeFile] uses. *)
Fixpoint ids_distinct (l : list File) : bool :=
  match l with
  | [] => true
  | f :: l' => forallb (fun g => negb (PrimFloat.eqb (id g) (id f))) l' && ids_distinct l'
  end.

(** The world after [n] more calls of the clock and of the random generator. *)
Definition advance (n : nat) (w : World) : World :=
  mkWorld (state w) (requests w)
          (Date_now w) (n + now_calls w) (Math_random w) (n + random_calls w).

(** The request [onDrop] sends for the files it is given. *)
Definition classify_request (acceptedFiles : list FileBlob) : Request :=
  mkRequest "http://localhost:8000/classify"
            (map (fun file => ("files", file)) acceptedFiles)
            "multipart/form-data" (30 * 1000).

(** The records a response body yields, or the exception its reading raises:
    the first two steps of the [try] block after the [await]. *)
Definition ingest (data : JsVal) : M (list File) :=
  entries <- lift (Object_entries data) ;;
  mapM newFile entries.

(** The state a failed submission leaves: the message of the failure, the
    collection as it was. *)
Definition failed (e : JsError) (w : World) : World :=
  with_state (fun s => mkState (files s) false
                               (Some (user_message (gateway_error e))) (selectedFile s)) w.

(** The state a successful submission leaves: the new records at the end. *)
Definition appended (newFiles : list File) (w : World) : World :=
  with_state (fun s => mkState (files s ++ newFiles) false (error s) (selectedFile s)) w.

(** ** Concrete inputs *)

(** The state of a freshly mounted [App], in an environment. *)
Definition mount (clock rng : nat -> float) : World :=
  mkWorld (mkState [] false None None) [] clock 0 rng 0.

(** A record with only the fields the validation presenter reads. *)
Definition sample_file (fid : float) (name : string) (idv datev : JsVal) (err : JsVal) : File :=
  mkFile fid name (JStr name) (JStr "ID") (JStr "Passport") (JStr "...") (JObj [])
         idv datev (truthy err) err.

Definition verdict (b : bool) : JsVal := JObj [("is_valid", JBool b)].

(** The response of the specification's end-to-end scenario. *)
Definition scenario_response : list (string * JsVal) :=
  [ ("a.pdf", JObj [ ("category", JStr "ID"); ("subcategory", JStr "Passport");
                     ("text", JStr "...");
                     ("id_validation", JObj [ ("is_valid", JBool true);
                                              ("id_type", JStr "Passport");
                                              ("confidence", JNum 0.95) ]) ]);
    ("b.png", JObj [ ("category", JStr "Income"); ("subcategory", JStr "Paystub");
                     ("text", JStr "..."); ("error", JNull) ]) ].

Definition a_pdf : FileBlob := mkFileBlob "a.pdf" "application/pdf" 120000.
Definition b_png : FileBlob := mkFileBlob "b.png" "image/png" 45000.

(** One byte over the size limit. *)
Definition big_pdf : FileBlob := mkFileBlob "scan.pdf" "application/pdf" (10 * 1024 * 1024 + 1).

(** A clock that stays within one millisecond and two different random
    numbers, 1/2 and 1/2 + 2^-20. *)
Definition same_millisecond (k : nat) : float := 1700000000000%float.

Definition close_draws (k : nat) : float :=
  match k with
  | O => 0.5%float
  | S _ => 0x1.00002p-1%float
  end.

(** Errors as the HTTP client builds them. *)
Definition timeout_error : JsError :=
  mkJsError (Some "ECONNABORTED") None "timeout of 30000ms exceeded".

Definition status_error (s : Z) (c msg : string) : JsError :=
  mkJsError (Some c) (Some (mkResponse s)) msg.

Definition today : DateUTC := mkDateUTC 2026 11 3 9 30 0 0.

(** A collection of one record, which is being previewed. *)
Definition passport : File :=
  sample_file 1 "a.pdf" (verdict true) JUndefined JUndefined.

Definition previewing : World :=
  mkWorld (mkState [passport] false None (Some passport)) []
          same_millisecond 0 close_draws 0.

(** The record [onDrop] makes of the entry b.png of the scenario: it has no
    validation at all. *)
Definition paystub : File :=
  renamed_entry 2 "b.png"
    (JObj [ ("category", JStr "Income"); ("subcategory", JStr "Paystub");
            ("text", JStr "..."); ("error", JNull) ]).


(** ** Grouping by category: [grouped], lines 112-116 *)

(** The properties every plain object inherits from [Object.prototype]:
    reading one of them from [{}] answers a function (an object for
    [__proto__]), never [undefined]. *)
Definition Object_prototype_names : list string :=
  [ "constructor"; "__defineGetter__"; "__defineSetter__"; "hasOwnProperty";
    "__lookupGetter__"; "__lookupSetter__"; "isPrototypeOf"; "propertyIsEnumerable";
    "toString"; "valueOf"; "__proto__"; "toLocaleString" ].

Definition inherited (k : string) : bool :=
  existsb (String.eqb k) Object_prototype_names.

Definition has_own {B : Type} (k : string) (props : list (string * B)) : bool :=
  existsb (fun p => String.eqb (fst p) k) props.

Section PropertyKeys.

(** Number::toString, the decimal writing of a binary64 number, is the
    engine's. *)
Variable Number_toString : float -> string.

(** ToString, which turns the value between the brackets of [acc[...]] into a
    property key.  An array is joined with commas, [null] and [undefined]
    elements giving nothing; a plain object answers through the inherited
    [toString] unless a member of its own hides it (a member read from JSON
    is never a function), and then the conversion throws. *)
Fixpoint ToString (v : JsVal) : Completion string :=
  match v with
  | JUndefined => Normal "undefined"
  | JNull => Normal "null"
  | JBool b => Normal (if b then "true" else "false")
  | JNum x => Normal (Number_toString x)
  | JStr s => Normal s
  | JArr elems =>
      (fix join (l : list JsVal) : Completion string :=
         match l with
         | [] => Normal ""
         | e :: l' =>
             match match e with
                   | JUndefined | JNull => Normal ""
                   | _ => ToString e
                   end with
             | Throw err => Throw err
             | Normal s =>
                 match l' with
                 | [] => Normal s
                 | _ :: _ =>
                     match join l' with
                     | Throw err => Throw err
                     | Normal r => Normal (String.append s (String.append "," r))
                     end
                 end
             end
         end) elems
  | JObj props =>
      if has_own "toString" props
      then Throw (mkJsError None None "Cannot convert object to primitive value")
      else Normal "[object Object]"
  end.

Definition ToPropertyKey (v : JsVal) : Completion string := ToString v.

Section Grouping.

(** The records grouped, and how their [category] is read: the component
    groups its [File] records, its simpler variant records of five fields. *)
Variable A : Type.
Variable category_of : A -> JsVal.

(** What [acc[k]] finds in the accumulator: an array the reducer stored under
    [k], a member inherited from [Object.prototype], or nothing. *)
Inductive Slot : Type :=
| OwnArray (arr : list A)
| InheritedMember
| NoProperty.

Definition slot (acc : list (string * list A)) (k : string) : Slot :=
  match find (fun p => String.eqb (fst p) k) acc with
  | Some p => OwnArray (snd p)
  | None => if inherited k then InheritedMember else NoProperty
  end.

(** [acc[k].push(file)] on an array of the accumulator. *)
Fixpoint push_own (k : string) (file : A) (acc : list (string * list A))
    : list (string * list A) :=
  match acc with
  | [] => []
  | (k', arr) :: acc' =>
      if String.eqb k' k then (k', arr ++ [file]) :: acc'
      else (k', arr) :: push_own k file acc'
  end.

(** The callback of [reduce].  The accumulator lists its own properties in
    the order of their creation.  An array and an inherited member are both
    truthy, so only a key that finds nothing gets a new array; [push] exists
    on arrays alone. *)
Definition group_step (acc : list (string * list A)) (file : A)
    : Completion (list (string * list A)) :=
  match ToPropertyKey (category_of file) with
  | Throw e => Throw e
  | Normal k =>
      let acc1 :=
        match slot acc k with
        | NoProperty => acc ++ [(k, [])]         (* if (!acc[k]) acc[k] = [] *)
        | OwnArray _ | InheritedMember => acc
        end in
      match slot acc1 k with
      | OwnArray _ => Normal (push_own k file acc1)
      | InheritedMember =>
          Throw (mkJsError None None "acc[file.category].push is not a function")
      | NoProperty =>
          Throw (mkJsError None None "Cannot read properties of undefined (reading 'push')")
      end
  end.

(** [files.reduce(callback, acc)]. *)
Fixpoint reduce (l : list A) (acc : list (string * list A))
    : Completion (list (string * list A)) :=
  match l with
  | [] => Normal acc
  | file :: l' =>
      match group_step acc file with
      | Normal acc' => reduce l' acc'
      | Throw e => Throw e
      end
  end.

Definition grouped_by (l : list A) : Completion (list (string * list A)) :=
  reduce l [].

End Grouping.

(** [grouped] of the component. *)
Definition grouped (l : list File) : Completion (list (string * list File)) :=
  grouped_by File category l.

End PropertyKeys.

Arguments OwnArray {A} arr.
Arguments InheritedMember {A}.
Arguments NoProperty {A}.

(** *** The order [Object.entries] and [Object.keys] walk an object built here *)

Definition digit_value (c : ascii) : option N :=
  let n := N_of_ascii c in
  if (48 <=? n)%N && (n <=? 57)%N then Some (n - 48)%N else None.

Fixpoint decimal_value (s : string) (acc : N) : option N :=
  match s with
  | EmptyString => Some acc
  | String c s' =>
      match digit_value c with
      | Some d => decimal_value s' (10 * acc + d)%N
      | None => None
      end
  end.

(** An array index: the canonical decimal writing of an integer from 0 to
    2^32 - 2. *)
Definition array_index (s : string) : option N :=
  match s with
  | EmptyString => None
  | String c s' =>
      if Ascii.eqb c "0"
      then match s' with EmptyString => Some 0%N | String _ _ => None end
      else match decimal_value s 0 with
           | Some n => if (n <? 4294967295)%N then Some n else None
           | None => None
           end
  end.

Fixpoint insert_by_index {B : Type} (n : N) (p : string * B)
    (l : list (N * (string * B))) : list (N * (string * B)) :=
  match l with
  | [] => [(n, p)]
  | (m, q) :: l' =>
      if (n <=? m)%N then (n, p) :: (m, q) :: l'
      else (m, q) :: insert_by_index n p l'
  end.

Fixpoint index_entries {B : Type} (props : list (string * B)) : list (N * (string * B)) :=
  match props with
  | [] => []
  | p :: props' =>
      match array_index (fst p) with
      | Some n => insert_by_index n p (index_entries props')
      | None => index_entries props'
      end
  end.

Definition is_named {B : Type} (p : string * B) : bool :=
  match array_index (fst p) with
  | Some _ => false
  | None => true
  end.

(** The own properties in enumeration order, from their order of creation:
    the array indices first, ascending, then the other keys as created. *)
Definition own_entries {B : Type} (props : list (string * B)) : list (string * B) :=
  map snd (index_entries props) ++ filter is_named props.

(** ** Category colours: [getCategoryColor], lines 366-375 *)

Definition colors : list (string * string) :=
  [ ("Income", "bg-green-600");
    ("Down Payment", "bg-blue-600");
    ("ID", "bg-purple-600");
    ("Other", "bg-gray-600");
    ("Error", "bg-red-600") ].

(** What [getCategoryColor] returns: a class name, or the member of
    [Object.prototype] that [colors[category]] found. *)
Inductive Colour : Type :=
| ClassName (c : string)
| PrototypeMember (name : string).

(** [colors[category] || 'bg-gray-600']. *)
Definition getCategoryColor (category : string) : Colour :=
  match find (fun p => String.eqb (fst p) category) colors with
  | Some p => if negb (String.eqb (snd p) "") then ClassName (snd p)
              else ClassName "bg-gray-600"
  | None => if inherited category then PrototypeMember category
            else ClassName "bg-gray-600"
  end.

(** ** What the component shows: the conditions of the returned JSX *)

(** One block of the results, lines 219-318: the key of the group, the
    colour of its header, the count in its title and one row per record with
    its validation icon. *)
Record CategoryBlock : Type := mkCategoryBlock {
  block_category : string;
  block_colour : Colour;
  block_count : nat;
  block_rows : list (Icon * File)
}.

(** The parts of the page whose presence depends on the state. *)
Record View : Type := mkView {
  processing : bool;                      (* line 157: the spinner replaces the prompt *)
  error_banner : option string;           (* line 175 *)
  action_buttons : bool;                  (* line 190 *)
  results : option (string * list CategoryBlock);  (* line 210: the count label, the blocks *)
  preview_modal : option File;            (* line 323 *)
  empty_state : bool                      (* line 353 *)
}.

(** The label of line 215. *)
Definition documents_label (n : nat) : string :=
  String.concat ""
    [ index_key n; " document"; (if Nat.eqb n 1 then "" else "s"); " processed" ].

(** One rendering of [App]: [grouped] is computed in the body of the
    component, so an exception of the grouping is an exception of the
    rendering.  Only the grouping's exceptions are modelled: what the
    rendering library makes of the values it is handed as children (it
    refuses a plain object) is not, so [Normal] here says that the component
    returned its elements, not that the library could draw them. *)
Definition render (Number_toString : float -> string) (s : State) : Completion View :=
  match grouped Number_toString (files s) with
  | Throw e => Throw e
  | Normal g =>
      Normal
        (mkView
           (loading s)
           (match error s with
            | Some msg => if negb (String.eqb msg "") then Some msg else None   (* error && ... *)
            | None => None
            end)
           (Nat.ltb 0 (List.length (files s)))
           (if Nat.ltb 0 (List.length (own_entries g))   (* Object.keys(grouped).length > 0 *)
            then Some (documents_label (List.length (files s)),
                       map (fun entry =>
                              mkCategoryBlock (fst entry) (getCategoryColor (fst entry))
                                              (List.length (snd entry))
                                              (map (fun file => (getValidationIcon file, file))
                                                   (snd entry)))
                           (own_entries g))
            else None)
           (selectedFile s)
           (Nat.eqb (List.length (files s)) 0 && negb (loading s)))
  end.

(** ** The simpler variant of the component: src/App.jsx *)

(** Sequencing of expressions that may throw. *)
Definition and_then {A B : Type} (c : Completion A) (k : A -> Completion B) : Completion B :=
  match c with
  | Normal a => k a
  | Throw e => Throw e
  end.

(** [l.map(f)] with a callback that may throw: the first exception ends it. *)
Fixpoint map_throwing {A B : Type} (f : A -> Completion B) (l : list A) : Completion (list B) :=
  match l with
  | [] => Normal []
  | a :: l' => and_then (f a) (fun b => and_then (map_throwing f l') (fun bs => Normal (b :: bs)))
  end.

Module Simple.

(** The record of lines 22-28: five fields, no id. *)
Record File : Type := mkFile {
  originalName : string;
  renamed : JsVal;
  category : JsVal;
  subcategory : JsVal;
  preview : JsVal
}.

(** The two [useState] cells. *)
Record State : Type := mkState {
  files : list File;
  loading : bool
}.

(** The call of [axios.post]: no timeout is asked for. *)
Record Request : Type := mkRequest {
  url : string;
  formData : list (string * FileBlob);
  content_type : string
}.

Record World : Type := mkWorld {
  state : State;
  requests : list Request
}.

(** The callback of [.map], lines 22-28. *)
Definition newFile (entry : string * JsVal) : Completion File :=
  let '(name, data) := entry in
  and_then (Get data "renamed") (fun v_renamed =>
  and_then (Get data "category") (fun v_category =>
  and_then (Get data "subcategory") (fun v_subcategory =>
  and_then (Get data "text") (fun v_text =>
  Normal (mkFile name v_renamed v_category v_subcategory v_text))))).

(** [onDrop] up to its [await], lines 11-20. *)
Definition onDrop_send (acceptedFiles : list FileBlob) (w : World) : World :=
  mkWorld (mkState (files (state w)) true)
          (requests w ++ [mkRequest "http://localhost:8000/classify"
                                    (map (fun file => ("files", file)) acceptedFiles)
                                    "multipart/form-data"]).

(** [onDrop] once the promise has settled, lines 18-35: the [catch] block
    only logs, the [finally] block resets [loading]. *)
Definition onDrop_settle (settled : Settled) (w : World) : World :=
  let tried :=
    match settled with
    | Fulfilled data => and_then (Object_entries data) (map_throwing newFile)
    | Rejected err => Throw err
    end in
  let w1 :=
    match tried with
    | Normal newFiles => mkWorld (mkState (files (state w) ++ newFiles) (loading (state w)))
                                 (requests w)
    | Throw _ => w
    end in
  mkWorld (mkState (files (state w1)) false) (requests w1).

Definition onDrop (acceptedFiles : list FileBlob) (settled : Settled) (w : World) : World :=
  onDrop_settle settled (onDrop_send acceptedFiles w).

(** [grouped], lines 44-48: the same reducer over these records. *)
Definition grouped (Number_toString : float -> string) (l : list File)
    : Completion (list (string * list File)) :=
  grouped_by Number_toString File category l.

(** The freshly mounted component. *)
Definition mount : World := mkWorld (mkState [] false) [].

(** Submissions one after the other, each settled before the next starts. *)
Fixpoint onDrop_all (drops : list (list FileBlob * Settled)) (w : World) : World :=
  match drops with
  | [] => w
  | (acceptedFiles, settled) :: drops' => onDrop_all drops' (onDrop acceptedFiles settled w)
  end.

End Simple.

(** The five fields the two variants share. *)
Definition shared_fields (f : File) : Simple.File :=
  Simple.mkFile (originalName f) (renamed f) (category f) (subcategory f) (preview f).

(** ** Notions for the properties of the grouping and of the handlers *)

(** The keys in the order of their first occurrence. *)
Fixpoint first_seen_from (seen : list string) (ks : list string) : list string :=
  match ks with
  | [] => seen
  | k :: ks' =>
      first_seen_from (if existsb (String.eqb k) seen then seen else seen ++ [k]) ks'
  end.

Definition first_seen (ks : list string) : list string := first_seen_from [] ks.

(** The key a record is grouped under, when its category can be a key of the
    accumulator: the conversion does not throw and the key is no member of
    [Object.prototype]. *)
Definition group_key (Number_toString : float -> string) (v : JsVal) : option string :=
  match ToPropertyKey Number_toString v with
  | Normal k => if inherited k then None else Some k
  | Throw _ => None
  end.

(** [l'] is [l] with some elements left out, the others in their order. *)
Inductive subsequence {A : Type} : list A -> list A -> Prop :=
| subsequence_nil : subsequence [] []
| subsequence_keep (a : A) (l' l : list A) : subsequence l' l -> subsequence (a :: l') (a :: l)
| subsequence_drop (a : A) (l' l : list A) : subsequence l' l -> subsequence l' (a :: l).

(** A record as [onDrop] builds one, with the category [c]. *)
Definition file_in_category (fid : float) (name : string) (c : JsVal) : File :=
  mkFile fid name (JStr name) c JUndefined JUndefined (JObj []) JUndefined JUndefined
         false JUndefined.

Section GroupingNotions.

Variable Number_toString : float -> string.
Variable A : Type.
Variable category_of : A -> JsVal.

(** The keys of the records that can be grouped, in the order of the
    records. *)
Definition keys_of (l : list A) : list string :=
  flat_map (fun a => match group_key Number_toString (category_of a) with
                     | Some k => [k]
                     | None => []
                     end) l.

(** The record [a] is grouped under [k]. *)
Definition key_is (k : string) (a : A) : bool :=
  match group_key Number_toString (category_of a) with
  | Some k' => String.eqb k' k
  | None => false
  end.

Definition groupable (a : A) : Prop :=
  exists k : string, group_key Number_toString (category_of a) = Some k.

(** [acc] is the grouping of the records [l]: one group per key, in the order
    the keys are first met; each group holds the records of its key, in the
    order of [l], and is not empty. *)
Definition groups_of (acc : list (string * list A)) (l : list A) : Prop :=
  map fst acc = first_seen (keys_of l) /\
  NoDup (map fst acc) /\
  (forall k, In k (map fst acc) -> inherited k = false) /\
  (forall k arr, In (k, arr) acc -> arr = filter (key_is k) l /\ arr <> []) /\
  Forall groupable l /\
  List.length (List.concat (map snd acc)) = List.length l.

End GroupingNotions.

(** A collection of three records in two categories, and a writing of
    numbers to run the grouping with (no category here is a number). *)
Definition three_files : list File :=
  [ file_in_category 1 "a.pdf" (JStr "ID");
    file_in_category 2 "b.png" (JStr "Income");
    file_in_category 3 "c.pdf" (JStr "ID") ].

Definition write_number (x : float) : string := "0".

(** Two keys that are array indices, the first no greater than the second. *)
Definition index_ordered (a b : string) : Prop :=
  exists n m : N, array_index a = Some n /\ array_index b = Some m /\ (n <= m)%N.

Definition is_index_key (k : string) : bool :=
  match array_index k with
  | Some _ => true
  | None => false
  end.

(** The block [render] makes of one entry of the grouping. *)
Definition block_of (entry : string * list File) : CategoryBlock :=
  mkCategoryBlock (fst entry) (getCategoryColor (fst entry)) (List.length (snd entry))
                  (map (fun file => (getValidationIcon file, file)) (snd entry)).

(** A collection whose categories are a word and two years. *)
Definition dated_files : list File :=
  [ file_in_category 1 "a.pdf" (JStr "Income");
    file_in_category 2 "b.pdf" (JStr "2024");
    file_in_category 3 "c.pdf" (JStr "2023");
    file_in_category 4 "d.pdf" (JStr "Income") ].

(** A grouping with every record replaced by its image under [h]. *)
Definition map_groups {A B : Type} (h : A -> B) (g : list (string * list A))
    : list (string * list B) :=
  map (fun entry => (fst entry, map h (snd entry))) g.

(** What the two variants put into a request alike. *)
Definition request_parts (r : Request) : string * list (string * FileBlob) * string :=
  (url r, formData r, content_type r).

Definition simple_request_parts (r : Simple.Request)
    : string * list (string * FileBlob) * string :=
  (Simple.url r, Simple.formData r, Simple.content_type r).

(** What [onDrop] guarantees of a record it builds: the metadata is a value
    (the empty object at least), and [hasError] says whether [error] is
    truthy. *)
Definition built_by_onDrop (f : File) : Prop :=
  metadata f <> JUndefined /\ hasError f = truthy (fileError f).

(** ** What can happen while a request is in flight *)

(** Nothing disables the drop zone or the buttons while [loading] is true:
    between the sending of a request and its settling the user may click,
    drop more files, and other requests may settle. *)
Inductive Event : Type :=
| Clicks (ev : UiEvent)
| Sends (acceptedFiles : list FileBlob)
| Settles (settled : Settled).

Definition perform (e : Event) : M unit :=
  match e with
  | Clicks ev => handle ev
  | Sends acceptedFiles => onDrop_send acceptedFiles
  | Settles settled => onDrop_settle settled
  end.

Fixpoint perform_all (es : list Event) : M unit :=
  match es with
  | [] => ret tt
  | e :: es' => perform e ;; perform_all es'
  end.

(** A body that can be walked and whose entries can all be read. *)
Definition readable_body (data : JsVal) : Prop :=
  exists entries, Object_entries data = Normal entries /\
                  Forall (fun e => readable (snd e)) entries.

(** An event that is not the failure of a submission. *)
Definition harmless (e : Event) : Prop :=
  match e with
  | Clicks _ | Sends _ => True
  | Settles (Fulfilled data) => readable_body data
  | Settles (Rejected _) => False
  end.

(** The number of UTF-16 code units of a string, its [length] in
    JavaScript. *)
Definition utf16_length (s : string) : nat :=
  List.length (code_units (list_ascii_of_string s)).

(** * Properties *)

(** ** Validation presenter *)

Lemma truthy_bool_true (v : JsVal) :
  v = JUndefined \/ (exists b : bool, v = JBool b) ->
  truthy v = true <-> v = JBool true.
Proof.
  intros [-> | [b ->]]; simpl.
  - split; discriminate.
  - split; [intros -> | intros [= ->]]; reflexivity.
Qed.

Lemma strict_eq_false_iff (v : JsVal) :
  strict_eq_false v = true <-> v = JBool false.
Proof.
  destruct v as [ | | [|] | | | | ]; simpl; split; congruence.
Qed.

(** Whatever the record holds, the icon is decided by truthiness and by strict
    equality with [false], in the order of the source. *)
Lemma getValidationIcon_cases (file : File) :
  getValidationIcon file =
    if hasError file then AlertCircle_red
    else if truthy (OptGet (idValidation file) "is_valid")
            || truthy (OptGet (dateValidation file) "is_valid") then CheckCircle_green
    else if strict_eq_false (OptGet (idValidation file) "is_valid")
            || strict_eq_false (OptGet (dateValidation file) "is_valid") then AlertCircle_yellow
    else Clock_gray.
Proof. reflexivity. Qed.

(** C1. On every record of the data model ([is_valid], where present, is a
    boolean) the presentation status is Error iff [hasError]; otherwise
    Validated iff one of the two verdicts is [true]; otherwise
    PartiallyInvalid iff one of them is [false]; otherwise Pending.  In
    particular: id invalid with date valid gives Validated; id invalid with
    no date validation gives PartiallyInvalid; an error with a valid id gives
    Error. *)
Theorem presentationStatus_precedence (file : File) :
  is_valid_typed (idValidation file) ->
  is_valid_typed (dateValidation file) ->
  let id_ok := OptGet (idValidation file) "is_valid" in
  let date_ok := OptGet (dateValidation file) "is_valid" in
  let some_valid := id_ok = JBool true \/ date_ok = JBool true in
  let some_invalid := id_ok = JBool false \/ date_ok = JBool false in
  (presentationStatus file = Error <-> hasError file = true) /\
  (presentationStatus file = Validated <-> hasError file = false /\ some_valid) /\
  (presentationStatus file = PartiallyInvalid <->
     hasError file = false /\ ~ some_valid /\ some_invalid) /\
  (presentationStatus file = Pending <->
     hasError file = false /\ ~ some_valid /\ ~ some_invalid) /\
  (hasError file = false -> id_ok = JBool false -> date_ok = JBool true ->
     presentationStatus file = Validated) /\
  (hasError file = false -> id_ok = JBool false -> dateValidation file = JUndefined ->
     presentationStatus file = PartiallyInvalid) /\
  (hasError file = true -> id_ok = JBool true -> presentationStatus file = Error).
Proof.
  intros Hid Hdate id_ok date_ok some_valid some_invalid.
  assert (Hpos : truthy id_ok || truthy date_ok = true <-> some_valid).
  { rewrite orb_true_iff.
    rewrite (truthy_bool_true id_ok Hid), (truthy_bool_true date_ok Hdate).
    reflexivity. }
  assert (Hneg : strict_eq_false id_ok || strict_eq_false date_ok = true <-> some_invalid).
  { rewrite orb_true_iff, !strict_eq_false_iff. reflexivity. }
  assert (Hd : dateValidation file = JUndefined -> date_ok = JUndefined).
  { intros E. unfold date_ok. rewrite E. reflexivity. }
  unfold presentationStatus. rewrite getValidationIcon_cases.
  fold id_ok date_ok.
  destruct (hasError file);
    destruct (truthy id_ok || truthy date_ok) eqn:Hp;
    destruct (strict_eq_false id_ok || strict_eq_false date_ok) eqn:Hn;
    simpl.
  all: try (assert some_valid by (apply (proj1 Hpos); reflexivity)).
  all: try (assert (~ some_valid) by (intros X; apply (proj2 Hpos) in X; discriminate)).
  all: try (assert some_invalid by (apply (proj1 Hneg); reflexivity)).
  all: try (assert (~ some_invalid) by (intros X; apply (proj2 Hneg) in X; discriminate)).
  all: clear Hpos Hneg; subst some_valid some_invalid; cbv beta in *.
  all: intuition (try discriminate; try congruence).
Qed.

(** The typing matters only for truthy values that are not [true]: a verdict
    [is_valid: 1] is shown as validated. *)
Remark getValidationIcon_truthy_number :
  getValidationIcon (sample_file 1 "id.pdf" (JObj [("is_valid", JNum 1)]) JUndefined JUndefined)
  = CheckCircle_green.
Proof. reflexivity. Qed.

Lemma presentationStatus_precedence_witness :
  let file := sample_file 1 "id.pdf" (verdict false) (verdict true) JUndefined in
  is_valid_typed (idValidation file) /\
  is_valid_typed (dateValidation file) /\
  presentationStatus file = Validated.
Proof.
  intros file.
  assert (Hid : is_valid_typed (idValidation file)) by (right; exists false; reflexivity).
  assert (Hdate : is_valid_typed (dateValidation file)) by (right; exists true; reflexivity).
  split; [exact Hid | split; [exact Hdate | ]].
  apply (presentationStatus_precedence file Hid Hdate); reflexivity.
Defined.

(** ** The monad's steps *)

Lemma Get_readable (data : JsVal) (k : string) :
  readable data -> Get data k = Normal (OptGet data k).
Proof.
  intros [Hnull Hundef]. destruct data; try reflexivity; congruence.
Qed.

Lemma newFile_readable (name : string) (data : JsVal) (w : World) :
  readable data ->
  newFile (name, data) w =
    (Normal (renamed_entry (PrimFloat.add (Date_now w (now_calls w))
                                          (Math_random w (random_calls w))) name data),
     advance 1 w).
Proof.
  intros Hr. unfold newFile, bind, lift, call_Date_now, call_Math_random, ret. simpl.
  rewrite !(Get_readable data _ Hr).
  unfold renamed_entry, advance. simpl.
  destruct (truthy (OptGet data "error")); reflexivity.
Qed.

Lemma advance_advance (n m : nat) (w : World) :
  advance n (advance m w) = advance (n + m) w.
Proof.
  unfold advance. simpl. rewrite !Nat.add_assoc. reflexivity.
Qed.

Lemma mapM_newFile_readable (entries : list (string * JsVal)) :
  Forall (fun e => readable (snd e)) entries ->
  forall w : World,
    mapM newFile entries w =
      (Normal (renamed_entries (Date_now w) (Math_random w)
                               (now_calls w) (random_calls w) entries),
       advance (List.length entries) w).
Proof.
  induction 1 as [ | [name data] entries Hr _ IH]; intros w.
  - destruct w; reflexivity.
  - simpl in Hr. cbn [mapM]. unfold bind at 1.
    rewrite (newFile_readable name data w Hr).
    unfold bind at 1. rewrite IH.
    unfold ret. rewrite advance_advance.
    cbn [List.length renamed_entries]. rewrite Nat.add_1_r. reflexivity.
Qed.

Lemma onDrop_send_world (acceptedFiles : list FileBlob) (w : World) :
  onDrop_send acceptedFiles w =
    (Normal tt,
     mkWorld (mkState (files (state w)) true None (selectedFile (state w)))
             (requests w ++ [classify_request acceptedFiles])
             (Date_now w) (now_calls w) (Math_random w) (random_calls w)).
Proof. reflexivity. Qed.

Lemma onDrop_catch_world (err : JsError) (w : World) :
  onDrop_catch err w =
    (Normal tt,
     with_state (fun s => mkState (files s) (loading s)
                                  (Some (user_message (gateway_error err))) (selectedFile s)) w).
Proof.
  unfold onDrop_catch, gateway_error.
  destruct err as [[c | ] [r | ] msg]; simpl;
    repeat match goal with
           | |- context [String.eqb ?a ?b] => destruct (String.eqb a b)
           | |- context [Z.eqb ?a ?b] => destruct (Z.eqb a b)
           | |- context [Z.leb ?a ?b] => destruct (Z.leb a b)
           end;
    reflexivity.
Qed.

(** [onDrop] after the [await], in full: a rejection and an exception raised
    while the body is read both end in the [catch] block; only a body read to
    its end changes the collection. *)
Lemma onDrop_settle_world (settled : Settled) (w : World) :
  onDrop_settle settled w =
    match settled with
    | Rejected err => (Normal tt, failed err w)
    | Fulfilled data =>
        match ingest data w with
        | (Normal newFiles, w') => (Normal tt, appended newFiles w')
        | (Throw e, w') => (Normal tt, failed e w')
        end
    end.
Proof.
  unfold onDrop_settle, try_catch_finally, ingest.
  destruct settled as [data | err]; cbn [await].
  - unfold bind, ret, lift.
    destruct (Object_entries data) as [entries | e].
    + destruct (mapM newFile entries w) as [[newFiles | e] w'].
      * reflexivity.
      * rewrite onDrop_catch_world. reflexivity.
    + rewrite onDrop_catch_world. reflexivity.
  - unfold bind, lift. rewrite onDrop_catch_world. reflexivity.
Qed.

Lemma exec_bind {A B : Type} (m : M A) (k : A -> M B) (w : World) :
  exec (bind m k) w =
    match m w with
    | (Normal a, w1) => exec (k a) w1
    | (Throw _, w1) => w1
    end.
Proof.
  unfold exec, bind. destruct (m w) as [[a | e] w1]; reflexivity.
Qed.

(** ** Gateway failures *)

Lemma user_message_injective (g g' : GatewayError) :
  user_message g = user_message g' -> g = g'.
Proof.
  destruct g as [ | | | msg], g' as [ | | | msg']; simpl; intros H;
    try reflexivity; try discriminate H.
  injection H as ->. reflexivity.
Qed.

Lemma gateway_error_cases :
  (forall err : JsError,
     code err = Some "ECONNABORTED" -> gateway_error err = Timeout) /\
  (forall (err : JsError) (r : Response),
     code err <> Some "ECONNABORTED" -> response err = Some r ->
     status r = 422%Z -> gateway_error err = UnsupportedFormat) /\
  (forall (err : JsError) (r : Response),
     code err <> Some "ECONNABORTED" -> response err = Some r ->
     (500 <= status r)%Z -> gateway_error err = ServerUnavailable) /\
  (forall err : JsError,
     code err <> Some "ECONNABORTED" ->
     (response err = None \/
      exists r, response err = Some r /\ status r <> 422%Z /\ (status r < 500)%Z) ->
     gateway_error err = Other (message err)).
Proof.
  assert (Hcode : forall c : string,
             Some c <> Some "ECONNABORTED" -> String.eqb c "ECONNABORTED" = false).
  { intros c Hc. apply String.eqb_neq. congruence. }
  split; [ | split; [ | split ] ].
  - intros [c r msg] Hc. simpl in Hc. subst c. reflexivity.
  - intros [[c | ] resp msg] r Hc Hr Hs; cbn [code response] in Hc, Hr; subst resp;
      unfold gateway_error; cbn [code response message];
      try rewrite (Hcode c Hc); rewrite Hs; reflexivity.
  - intros [[c | ] resp msg] r Hc Hr Hs; cbn [code response] in Hc, Hr; subst resp;
      unfold gateway_error; cbn [code response message];
      try rewrite (Hcode c Hc);
      destruct (status r =? 422)%Z eqn:E;
      try (apply Z.eqb_eq in E; lia);
      (replace (500 <=? status r)%Z with true by (symmetry; apply Z.leb_le; exact Hs));
      reflexivity.
  - intros [[c | ] resp msg] Hc [Hr | [r [Hr [H422 H500]]]];
      cbn [code response] in Hc, Hr; subst resp;
      unfold gateway_error; cbn [code response message];
      try rewrite (Hcode c Hc); try reflexivity;
      (replace (status r =? 422)%Z with false by (symmetry; apply Z.eqb_neq; exact H422));
      (replace (500 <=? status r)%Z with false by (symmetry; apply Z.leb_gt; exact H500));
      reflexivity.
Qed.

Lemma onDrop_settle_rejected_error (w : World) (err : JsError) :
  error (state (exec (onDrop_settle (Rejected err)) w))
  = Some (user_message (gateway_error err)).
Proof. unfold exec. rewrite onDrop_settle_world. reflexivity. Qed.

(** C4. A failed submission shows the message of exactly one normalized
    error, decided by the failure alone: Timeout for a timeout (the request
    carries the 30-second limit and the HTTP client reports its expiry under
    the code ECONNABORTED), UnsupportedFormat for a response of status 422,
    ServerUnavailable for a status of 500 or more, and Other with the error's
    message for anything else; different errors have different messages. *)
Theorem failure_maps_to_one_error :
  let shown (w : World) (err : JsError) : option string :=
    error (state (exec (onDrop_settle (Rejected err)) w)) in
  (forall (w : World) (err : JsError),
     code err = Some "ECONNABORTED" -> shown w err = Some (user_message Timeout)) /\
  (forall (w : World) (err : JsError) (r : Response),
     code err <> Some "ECONNABORTED" -> response err = Some r ->
     status r = 422%Z -> shown w err = Some (user_message UnsupportedFormat)) /\
  (forall (w : World) (err : JsError) (r : Response),
     code err <> Some "ECONNABORTED" -> response err = Some r ->
     (500 <= status r)%Z -> shown w err = Some (user_message ServerUnavailable)) /\
  (forall (w : World) (err : JsError),
     code err <> Some "ECONNABORTED" ->
     (response err = None \/
      exists r, response err = Some r /\ status r <> 422%Z /\ (status r < 500)%Z) ->
     shown w err = Some (user_message (Other (message err)))) /\
  (forall (w w' : World) (err : JsError), shown w err = shown w' err) /\
  (forall g g' : GatewayError, user_message g = user_message g' -> g = g') /\
  (forall (w : World) (acceptedFiles : list FileBlob),
     exists req : Request,
       requests (exec (onDrop_send acceptedFiles) w) = requests w ++ [req] /\
       timeout req = (30 * 1000)%Z).
Proof.
  intros shown.
  destruct gateway_error_cases as (Htimeout & H422 & H5xx & Hother).
  assert (Hshown : forall w err, shown w err = Some (user_message (gateway_error err)))
    by exact onDrop_settle_rejected_error.
  split; [ | split; [ | split; [ | split; [ | split; [ | split ] ] ] ] ].
  - intros w err Hc. rewrite Hshown, (Htimeout err Hc). reflexivity.
  - intros w err r Hc Hr Hs. rewrite Hshown, (H422 err r Hc Hr Hs). reflexivity.
  - intros w err r Hc Hr Hs. rewrite Hshown, (H5xx err r Hc Hr Hs). reflexivity.
  - intros w err Hc Hr. rewrite Hshown, (Hother err Hc Hr). reflexivity.
  - intros w w' err. rewrite !Hshown. reflexivity.
  - exact user_message_injective.
  - intros w acceptedFiles. exists (classify_request acceptedFiles).
    unfold exec. rewrite onDrop_send_world. split; reflexivity.
Qed.

Lemma failure_maps_to_one_error_witness :
  let shown err :=
    error (state (exec (onDrop_settle (Rejected err))
                       (exec (onDrop_send [a_pdf]) (mount same_millisecond close_draws)))) in
  shown timeout_error = Some (user_message Timeout) /\
  shown (status_error 422 "ERR_BAD_REQUEST" "Request failed with status code 422")
  = Some (user_message UnsupportedFormat) /\
  shown (status_error 503 "ERR_BAD_RESPONSE" "Request failed with status code 503")
  = Some (user_message ServerUnavailable) /\
  shown (mkJsError (Some "ERR_NETWORK") None "Network Error")
  = Some (user_message (Other "Network Error")).
Proof.
  intros shown.
  destruct failure_maps_to_one_error as (Htimeout & H422 & H5xx & Hother & _).
  split; [ | split; [ | split ] ]; unfold shown.
  - apply Htimeout. reflexivity.
  - apply (H422 _ _ (mkResponse 422)); [discriminate | reflexivity | reflexivity].
  - apply (H5xx _ _ (mkResponse 503)); [discriminate | reflexivity | simpl; lia].
  - apply (Hother _ (mkJsError (Some "ERR_NETWORK") None "Network Error"));
      [discriminate | left; reflexivity].
Defined.

(** ** Submission outcomes *)

Lemma newFile_state (entry : string * JsVal) (w : World) :
  state (snd (newFile entry w)) = state w.
Proof.
  destruct entry as [name data].
  unfold newFile, bind, lift, call_Date_now, call_Math_random, ret.
  destruct data; reflexivity.
Qed.

Lemma mapM_newFile_state (entries : list (string * JsVal)) :
  forall w : World, state (snd (mapM newFile entries w)) = state w.
Proof.
  induction entries as [ | entry entries IH]; intros w.
  - reflexivity.
  - cbn [mapM]. unfold bind at 1.
    pose proof (newFile_state entry w) as Hentry.
    destruct (newFile entry w) as [[f | e] w1]; cbn [snd] in Hentry.
    + unfold bind at 1. specialize (IH w1).
      destruct (mapM newFile entries w1) as [[fs | e] w2]; unfold ret;
        cbn [snd] in IH |- *; congruence.
    + exact Hentry.
Qed.

(** Reading a response touches the clock and the random generator only. *)
Lemma ingest_state (data : JsVal) (w : World) :
  state (snd (ingest data w)) = state w.
Proof.
  unfold ingest, bind, lift.
  destruct (Object_entries data) as [entries | e].
  - apply mapM_newFile_state.
  - reflexivity.
Qed.

(** No click raises an exception, and none makes an error message appear. *)
Lemma handle_returns (ev : UiEvent) (w : World) :
  fst (handle ev w) = Normal tt.
Proof. destruct ev; reflexivity. Qed.

Lemma handle_keeps_no_error (ev : UiEvent) (w : World) :
  error (state w) = None -> error (state (exec (handle ev) w)) = None.
Proof. destruct ev; intros H; try reflexivity; exact H. Qed.

Lemma handle_all_keeps_no_error (evs : list UiEvent) :
  forall w : World,
    error (state w) = None -> error (state (exec (handle_all evs) w)) = None.
Proof.
  induction evs as [ | ev evs IH]; intros w H.
  - exact H.
  - unfold exec. cbn [handle_all]. unfold bind.
    pose proof (handle_returns ev w) as Hret.
    pose proof (handle_keeps_no_error ev w H) as Hnone.
    unfold exec in Hnone.
    destruct (handle ev w) as [[[] | e] w1]; cbn [fst snd] in *.
    + apply IH. exact Hnone.
    + discriminate Hret.
Qed.

(** ** Ingestion order *)

Lemma renamed_entries_names (clock rng : nat -> float) (entries : list (string * JsVal)) :
  forall i j : nat,
    map originalName (renamed_entries clock rng i j entries) = map fst entries.
Proof.
  induction entries as [ | [name data] entries IH]; intros i j; cbn.
  - reflexivity.
  - rewrite IH. reflexivity.
Qed.


Lemma onDrop_fulfilled_world
    (acceptedFiles : list FileBlob) (data : JsVal) (entries : list (string * JsVal))
    (w : World) :
  Object_entries data = Normal entries ->
  Forall (fun e => readable (snd e)) entries ->
  onDrop acceptedFiles (Fulfilled data) w =
    (Normal tt,
     appended (renamed_entries (Date_now w) (Math_random w)
                               (now_calls w) (random_calls w) entries)
              (advance (List.length entries) (exec (onDrop_send acceptedFiles) w))).
Proof.
  intros Hentries Hreadable.
  unfold onDrop, exec, bind at 1. rewrite onDrop_send_world. cbn [snd].
  rewrite onDrop_settle_world. unfold ingest, bind, lift.
  rewrite Hentries, (mapM_newFile_readable entries Hreadable).
  reflexivity.
Qed.




(** An entry that is [null] is no entry with missing fields: its fields cannot
    be read, the exception lands in the [catch] block and the whole response
    is dropped. *)
Remark null_entry_fails_the_submission :
  let w' := exec (onDrop [a_pdf] (Fulfilled (JObj [("a.pdf", JNull)])))
                 (mount same_millisecond close_draws) in
  files (state w') = [] /\
  error (state w')
  = Some "Classification failed: Cannot read properties of null (reading 'renamed')".
Proof. split; reflexivity. Qed.

(** ** Removal *)

Lemma removeFile_world (fileId : float) (w : World) :
  removeFile fileId w =
    (Normal JUndefined,
     with_state (fun s => mkState (filter (id_differs fileId) (files s))
                                  (loading s) (error s) (selectedFile s)) w).
Proof. reflexivity. Qed.

Lemma filter_idempotent {A : Type} (p : A -> bool) (l : list A) :
  filter p (filter p l) = filter p l.
Proof.
  induction l as [ | a l IH]; cbn.
  - reflexivity.
  - destruct (p a) eqn:Hp; cbn; [rewrite Hp, IH | rewrite IH]; reflexivity.
Qed.

Lemma filter_all {A : Type} (p : A -> bool) (l : list A) :
  (forall a, In a l -> p a = true) -> filter p l = l.
Proof.
  induction l as [ | a l IH]; cbn; intros H.
  - reflexivity.
  - rewrite (H a (or_introl eq_refl)), IH; [reflexivity | ].
    intros b Hb. apply H. right. exact Hb.
Qed.

Lemma id_differs_true (fileId : float) (f : File) :
  id_differs fileId f = true <-> PrimFloat.eqb (id f) fileId = false.
Proof. unfold id_differs. apply negb_true_iff. Qed.

(** C9 (as amended). [removeFile] has no result: it evaluates to [undefined]
    whether the id is in the collection or not.  For an id that no record has,
    the collection is unchanged.  For an id that some record has, every
    record with that id goes (that record alone when no other shares its id),
    and the records with other ids stay, the same records in the same
    order; nothing else of the state changes. *)
Theorem removeFile_effect (w : World) (fileId : float) :
  let w' := exec (removeFile fileId) w in
  fst (removeFile fileId w) = Normal JUndefined /\
  ((forall f, In f (files (state w)) -> PrimFloat.eqb (id f) fileId = false) ->
   files (state w') = files (state w)) /\
  (forall l1 f l2,
     files (state w) = l1 ++ f :: l2 -> PrimFloat.eqb (id f) fileId = true ->
     files (state w') = filter (id_differs fileId) l1 ++ filter (id_differs fileId) l2) /\
  (forall l1 f l2,
     files (state w) = l1 ++ f :: l2 -> PrimFloat.eqb (id f) fileId = true ->
     (forall g, In g (l1 ++ l2) -> PrimFloat.eqb (id g) fileId = false) ->
     files (state w') = l1 ++ l2) /\
  (forall g, In g (files (state w')) <->
             In g (files (state w)) /\ PrimFloat.eqb (id g) fileId = false) /\
  loading (state w') = loading (state w) /\
  error (state w') = error (state w) /\
  requests w' = requests w.
Proof.
  intros w'. unfold w', exec. rewrite removeFile_world.
  unfold with_state. cbn [fst snd state files loading error requests].
  split; [reflexivity | ].
  assert (Hsplit : forall l1 f l2,
             files (state w) = l1 ++ f :: l2 -> PrimFloat.eqb (id f) fileId = true ->
             filter (id_differs fileId) (files (state w))
             = filter (id_differs fileId) l1 ++ filter (id_differs fileId) l2).
  { intros l1 f l2 -> Hf. rewrite filter_app. cbn [filter].
    unfold id_differs at 2. rewrite Hf. reflexivity. }
  split; [ | split; [exact Hsplit | split; [ | split ] ] ].
  - intros Habsent. apply filter_all. intros f Hf.
    apply id_differs_true, Habsent, Hf.
  - intros l1 f l2 Hfiles Hf Hothers. rewrite (Hsplit l1 f l2 Hfiles Hf).
    rewrite <- filter_app. apply filter_all. intros g Hg.
    apply id_differs_true, Hothers, Hg.
  - intros g. rewrite filter_In, id_differs_true. reflexivity.
  - repeat split.
Qed.

Lemma removeFile_effect_witness :
  let w' := exec (removeFile 1) previewing in
  PrimFloat.eqb (id passport) 1 = true /\
  fst (removeFile 1 previewing) = Normal JUndefined /\
  files (state w') = [].
Proof.
  intros w'.
  assert (Hid : PrimFloat.eqb (id passport) 1 = true) by reflexivity.
  destruct (removeFile_effect previewing 1) as (Hret & _ & _ & Hone & _).
  split; [exact Hid | split; [exact Hret | ]].
  apply (Hone [] passport [] eq_refl Hid). intros g [].
Defined.

(** No boolean comes back: for an id that is present the call does not
    evaluate to [true], and for one that is absent not to [false]. *)
Lemma removeFile_returns_no_boolean :
  existsb (fun f => PrimFloat.eqb (id f) 1) (files (state previewing)) = true /\
  fst (removeFile 1 previewing) <> Normal (JBool true) /\
  existsb (fun f => PrimFloat.eqb (id f) 2) (files (state previewing)) = false /\
  fst (removeFile 2 previewing) <> Normal (JBool false).
Proof.
  repeat split; try reflexivity; rewrite removeFile_world; discriminate.
Qed.

(** C10. Removing the same id twice leaves the world that removing it once
    leaves: one call takes out every record with that id (two records that
    shared an id would both go), and what stays is the collection's records
    with other ids, in their order. *)
Theorem removeFile_idempotent (w : World) (fileId : float) :
  exec (removeFile fileId) (exec (removeFile fileId) w) = exec (removeFile fileId) w /\
  files (state (exec (removeFile fileId) w)) = filter (id_differs fileId) (files (state w)) /\
  (forall f, In f (files (state (exec (removeFile fileId) w))) ->
             PrimFloat.eqb (id f) fileId = false) /\
  (forall l1 l2, files (state w) = l1 ++ l2 ->
     files (state (exec (removeFile fileId) w))
     = filter (id_differs fileId) l1 ++ filter (id_differs fileId) l2).
Proof.
  unfold exec. rewrite !removeFile_world. unfold with_state.
  cbn [fst snd state files loading error selectedFile requests
       Date_now now_calls Math_random random_calls].
  split; [ | split; [reflexivity | split ] ].
  - rewrite filter_idempotent. reflexivity.
  - intros f Hf. apply filter_In in Hf. apply id_differs_true, Hf.
  - intros l1 l2 ->. apply filter_app.
Qed.

(** ** The preview *)

(** C7 (as amended). The preview holds the record itself, not an id, and only
    the eye button and the close button of the preview change it: removing a
    record, the previewed one included, leaves the preview as it was, and so
    do clearing the collection and dismissing an error. *)
Theorem removeFile_keeps_preview :
  (forall (w : World) (fileId : float),
     selectedFile (state (exec (removeFile fileId) w)) = selectedFile (state w)) /\
  (forall (w : World) (ev : UiEvent),
     selectedFile (state (exec (handle ev) w))
     = match ev with
       | ClickPreview file => Some file
       | ClickClosePreview => None
       | ClickDismissError | ClickClearAll | ClickRemove _ => selectedFile (state w)
       end).
Proof.
  split.
  - intros w fileId. unfold exec. rewrite removeFile_world. reflexivity.
  - intros w ev. destruct ev; reflexivity.
Qed.

(** The previewed record is removed and the preview still shows it. *)
Lemma removed_record_stays_previewed :
  preview_in_collection (state previewing) /\
  PrimFloat.eqb (id passport) 1 = true /\
  files (state (exec (removeFile 1) previewing)) = [] /\
  selectedFile (state (exec (removeFile 1) previewing)) = Some passport /\
  ~ preview_in_collection (state (exec (removeFile 1) previewing)).
Proof.
  split; [left; reflexivity | ].
  split; [reflexivity | ].
  split; [reflexivity | ].
  split; [reflexivity | ].
  intros H. exact H.
Qed.

(** ** The drop zone *)

Lemma newFile_requests (entry : string * JsVal) (w : World) :
  requests (snd (newFile entry w)) = requests w.
Proof.
  destruct entry as [name data].
  unfold newFile, bind, lift, call_Date_now, call_Math_random, ret.
  destruct data; reflexivity.
Qed.

Lemma mapM_newFile_requests (entries : list (string * JsVal)) :
  forall w : World, requests (snd (mapM newFile entries w)) = requests w.
Proof.
  induction entries as [ | entry entries IH]; intros w.
  - reflexivity.
  - cbn [mapM]. unfold bind at 1.
    pose proof (newFile_requests entry w) as Hentry.
    destruct (newFile entry w) as [[f | e] w1]; cbn [snd] in Hentry.
    + unfold bind at 1. specialize (IH w1).
      destruct (mapM newFile entries w1) as [[fs | e] w2]; unfold ret;
        cbn [snd] in IH |- *; congruence.
    + exact Hentry.
Qed.

(** Settling a submission sends nothing. *)
Lemma onDrop_settle_requests (settled : Settled) (w : World) :
  requests (snd (onDrop_settle settled w)) = requests w.
Proof.
  rewrite onDrop_settle_world. destruct settled as [data | err].
  - assert (H : requests (snd (ingest data w)) = requests w).
    { unfold ingest, bind, lift.
      destruct (Object_entries data) as [entries | e];
        [apply mapM_newFile_requests | reflexivity]. }
    destruct (ingest data w) as [[newFiles | e] w']; exact H.
  - reflexivity.
Qed.

(** C8 (as amended). Every selection sends exactly one request, whose form
    carries the accepted files of the selection, in order, under the name
    files: a file excluded for its type or its size is never in it.  When
    every file is excluded the request is sent all the same, with an empty
    form, and its outcome is handled as any other. *)
Theorem drop_sends_accepted_files
    (attr_accept : list (string * list string) -> FileBlob -> bool)
    (w : World) (selected : list FileBlob) (settled : Settled) :
  let w' := exec (useDropzone_drop attr_accept selected settled) w in
  let sent := classify_request (filter (fileAccepted attr_accept) selected) in
  requests w' = requests w ++ [sent] /\
  formData sent = map (fun file => ("files", file)) (filter (fileAccepted attr_accept) selected) /\
  (forall file, In file (map snd (formData sent)) <->
                In file selected /\
                attr_accept accept file = true /\ (blob_size file <= 10 * 1024 * 1024)%Z) /\
  exec (useDropzone_drop attr_accept selected settled) w
  = exec (onDrop_settle settled) (exec (onDrop_send (filter (fileAccepted attr_accept) selected)) w).
Proof.
  intros w' sent.
  assert (Hrun : w' = exec (onDrop_settle settled)
                           (exec (onDrop_send (filter (fileAccepted attr_accept) selected)) w)).
  { unfold w', useDropzone_drop, onDrop. rewrite exec_bind, onDrop_send_world.
    unfold exec. rewrite onDrop_send_world. reflexivity. }
  split; [ | split; [reflexivity | split; [ | exact Hrun ] ] ].
  - rewrite Hrun. unfold exec. rewrite onDrop_settle_requests, onDrop_send_world.
    reflexivity.
  - intros file. unfold sent, classify_request. cbn [formData].
    rewrite map_map. cbn [snd]. rewrite map_id, filter_In.
    unfold fileAccepted, maxSize. rewrite andb_true_iff, Z.leb_le. reflexivity.
Qed.

(** [onDrop] sends its request for an empty list too.  A selection of one
    file too large: it is excluded whatever its type, the request leaves with
    an empty form, and when the server answers 422 the user reads an error. *)
Lemma all_excluded_still_submits :
  (forall settled,
     requests (exec (onDrop [] settled) (mount same_millisecond close_draws))
     = [classify_request []]) /\
  (forall attr_accept, filter (fileAccepted attr_accept) [big_pdf] = []) /\
  (forall attr_accept settled,
     requests (exec (useDropzone_drop attr_accept [big_pdf] settled)
                    (mount same_millisecond close_draws))
     = [classify_request []]) /\
  (forall attr_accept,
     error (state (exec (useDropzone_drop attr_accept [big_pdf]
                           (Rejected (status_error 422 "ERR_BAD_REQUEST"
                                        "Request failed with status code 422")))
                        (mount same_millisecond close_draws)))
     = Some "Invalid file format - please upload PDF, PNG, JPG, or JPEG files").
Proof.
  assert (Hnone : forall attr_accept, filter (fileAccepted attr_accept) [big_pdf] = []).
  { intros attr_accept. cbn [filter]. unfold fileAccepted.
    replace (blob_size big_pdf <=? maxSize)%Z with false by reflexivity.
    rewrite andb_false_r. reflexivity. }
  assert (Hsent : forall settled,
             requests (exec (onDrop [] settled) (mount same_millisecond close_draws))
             = [classify_request []]).
  { intros settled. unfold onDrop. rewrite exec_bind, onDrop_send_world.
    unfold exec. rewrite onDrop_settle_requests. reflexivity. }
  split; [exact Hsent | split; [exact Hnone | split] ].
  - intros attr_accept settled. unfold useDropzone_drop. rewrite Hnone. apply Hsent.
  - intros attr_accept. unfold useDropzone_drop. rewrite Hnone. reflexivity.
Qed.

(** ** Identifiers *)

(** C6 (what the code does at a concrete input). Two entries of one response
    are ingested within the same millisecond; the random generator answers
    two different numbers, 1/2 and 1/2 + 2^-20; near 1.7e12 a binary64 number
    keeps twelve binary digits after the point, so both sums round to the same
    identifier.  The two live records share their id, and removing one by its
    id removes both. *)
Lemma ids_collide_within_a_millisecond :
  let w' := exec (onDrop [a_pdf; b_png] (Fulfilled (JObj scenario_response)))
                 (mount same_millisecond close_draws) in
  PrimFloat.eqb (close_draws 0) (close_draws 1) = false /\
  map originalName (files (state w')) = ["a.pdf"; "b.png"] /\
  map id (files (state w')) = [1700000000000.5%float; 1700000000000.5%float] /\
  ids_distinct (files (state w')) = false /\
  files (state (exec (removeFile 1700000000000.5) w')) = [].
Proof.
  repeat split; vm_compute; reflexivity.
Qed.

Lemma ids_distinct_filter (p : File -> bool) (l : list File) :
  ids_distinct l = true -> ids_distinct (filter p l) = true.
Proof.
  induction l as [ | f l IH]; cbn; intros H.
  - reflexivity.
  - apply andb_true_iff in H. destruct H as [Hf Hl].
    destruct (p f); cbn; [ | apply IH; exact Hl].
    rewrite (IH Hl), andb_true_r.
    rewrite forallb_forall in Hf |- *.
    intros g Hg. apply Hf. apply filter_In in Hg. apply Hg.
Qed.

(** Removing and clearing cannot make two identifiers meet: only ingestion
    can. *)
Lemma clicks_keep_ids_distinct (ev : UiEvent) (w : World) :
  ids_distinct (files (state w)) = true ->
  ids_distinct (files (state (exec (handle ev) w))) = true.
Proof.
  intros H. destruct ev; try exact H.
  - reflexivity.
  - unfold exec. cbn [handle]. unfold bind. rewrite removeFile_world.
    cbn. apply ids_distinct_filter. exact H.
Qed.

(** ** Export *)

Lemma serialize_none_iff (v : JsVal) :
  SerializeJSONProperty v = None <-> v = JUndefined.
Proof.
  destruct v; cbn; split; intros H; try reflexivity; discriminate H.
Qed.

Lemma member_present (k : string) (v : JsVal) :
  v <> JUndefined -> exists j : Json, member k v = [(k, j)].
Proof.
  intros Hv. unfold member.
  destruct (SerializeJSONProperty v) as [j | ] eqn:E.
  - exists j. reflexivity.
  - apply serialize_none_iff in E. contradiction.
Qed.

Lemma member_absent (k : string) : member k JUndefined = [].
Proof. reflexivity. Qed.

Lemma member_cases (k : string) (v : JsVal) :
  (v = JUndefined /\ member k v = []) \/
  (v <> JUndefined /\ exists j : Json, member k v = [(k, j)]).
Proof.
  destruct v; try (right; split; [discriminate | eexists; reflexivity]).
  left. split; reflexivity.
Qed.

Lemma serialize_export_entry (file : File) :
  SerializeJSONProperty (export_entry file) = Some (exported file).
Proof.
  unfold export_entry, exported, exported_validation, member. cbn [SerializeJSONProperty].
  destruct (SerializeJSONProperty (renamed file));
    destruct (SerializeJSONProperty (category file));
    destruct (SerializeJSONProperty (subcategory file));
    destruct (SerializeJSONProperty (metadata file));
    destruct (SerializeJSONProperty (idValidation file));
    destruct (SerializeJSONProperty (dateValidation file));
    reflexivity.
Qed.

Lemma stringify_results (l : list File) :
  JSON_stringify (JArr (map export_entry l)) = Some (JsonArr (map exported l)).
Proof.
  unfold JSON_stringify. cbn [SerializeJSONProperty]. rewrite map_map.
  do 2 f_equal. apply map_ext. intros file.
  rewrite serialize_export_entry. reflexivity.
Qed.

(** The date part of an ISO string. *)

Lemma digit_is_not_T (n : Z) : Ascii.eqb (digit n) "T" = false.
Proof.
  unfold digit.
  assert (H : (0 <= n mod 10 < 10)%Z) by (apply Z.mod_pos_bound; lia).
  assert (Hcases : exists k : nat, (k < 10)%nat /\ Z.to_nat (n mod 10) = k).
  { exists (Z.to_nat (n mod 10)). split; [lia | reflexivity]. }
  destruct Hcases as [k [Hk ->]].
  do 10 (destruct k as [ | k]; [reflexivity | ]).
  lia.
Qed.

Lemma before_T_app (s t : string) :
  before_T s = s -> before_T (String.append s t) = String.append s (before_T t).
Proof.
  induction s as [ | c s IH]; cbn; intros H.
  - reflexivity.
  - destruct (Ascii.eqb c "T").
    + discriminate H.
    + injection H as H. rewrite (IH H). reflexivity.
Qed.

Lemma before_T_pad (k : nat) : forall n : Z, before_T (pad k n) = pad k n.
Proof.
  induction k as [ | k IH]; intros n; cbn [pad].
  - reflexivity.
  - rewrite before_T_app by apply IH. f_equal. cbn [before_T].
    rewrite digit_is_not_T. reflexivity.
Qed.

Lemma string_append_nil_r (s : string) : String.append s "" = s.
Proof.
  induction s as [ | c s IH]; cbn; [ | rewrite IH]; reflexivity.
Qed.

Lemma before_T_toISOString (d : DateUTC) :
  (0 <= utc_year d <= 9999)%Z ->
  before_T (toISOString d)
  = String.concat "" [pad 4 (utc_year d); "-"; pad 2 (utc_month d); "-"; pad 2 (utc_day d)].
Proof.
  intros [Hlo Hhi]. unfold toISOString.
  replace (0 <=? utc_year d)%Z with true by (symmetry; apply Z.leb_le; exact Hlo).
  replace (utc_year d <=? 9999)%Z with true by (symmetry; apply Z.leb_le; exact Hhi).
  cbn [andb String.concat String.append].
  rewrite before_T_app by apply before_T_pad. f_equal.
  cbn [before_T]. cbn [Ascii.eqb Bool.eqb]. f_equal.
  rewrite before_T_app by apply before_T_pad. f_equal.
  cbn [before_T]. cbn [Ascii.eqb Bool.eqb]. f_equal.
  rewrite before_T_app by apply before_T_pad.
  cbn [before_T]. cbn [Ascii.eqb Bool.eqb]. apply string_append_nil_r.
Qed.

Lemma has_all_fields_iff (file : File) :
  has_all_fields (exported file) <->
  renamed file <> JUndefined /\ category file <> JUndefined /\
  subcategory file <> JUndefined /\ metadata file <> JUndefined /\
  idValidation file <> JUndefined /\ dateValidation file <> JUndefined.
Proof.
  unfold has_all_fields, exported, exported_validation.
  destruct (member_cases "renamed" (renamed file)) as [[Hr ->] | [Hr [jr ->]]];
    destruct (member_cases "category" (category file)) as [[Hc ->] | [Hc [jc ->]]];
    destruct (member_cases "subcategory" (subcategory file)) as [[Hs ->] | [Hs [js ->]]];
    destruct (member_cases "metadata" (metadata file)) as [[Hm ->] | [Hm [jm ->]]];
    destruct (member_cases "id_validation" (idValidation file)) as [[Hi ->] | [Hi [ji ->]]];
    destruct (member_cases "date_validation" (dateValidation file)) as [[Hd ->] | [Hd [jd ->]]];
    cbn [app]; split;
    try (intros (n & r & c & s & m & iv & dv & H); exfalso; congruence);
    try (intros (H1 & H2 & H3 & H4 & H5 & H6); exfalso; congruence).
  - intros _. repeat split; assumption.
  - intros _. repeat eexists.
Qed.

Lemma member_names_exported (file : File) (k : string) :
  In k (member_names (exported file)) <->
  k = "original_name" \/
  (k = "renamed" /\ renamed file <> JUndefined) \/
  (k = "category" /\ category file <> JUndefined) \/
  (k = "subcategory" /\ subcategory file <> JUndefined) \/
  (k = "metadata" /\ metadata file <> JUndefined) \/
  k = "validation".
Proof.
  unfold exported, member_names, members.
  destruct (member_cases "renamed" (renamed file)) as [[Hr ->] | [Hr [jr ->]]];
    destruct (member_cases "category" (category file)) as [[Hc ->] | [Hc [jc ->]]];
    destruct (member_cases "subcategory" (subcategory file)) as [[Hs ->] | [Hs [js ->]]];
    destruct (member_cases "metadata" (metadata file)) as [[Hm ->] | [Hm [jm ->]]];
    cbn [app map fst In];
    intuition (try congruence; auto).
Qed.

Lemma member_names_exported_validation (file : File) (k : string) :
  In k (member_names (exported_validation file)) <->
  (k = "id_validation" /\ idValidation file <> JUndefined) \/
  (k = "date_validation" /\ dateValidation file <> JUndefined).
Proof.
  unfold exported_validation, member_names, members.
  destruct (member_cases "id_validation" (idValidation file)) as [[Hi ->] | [Hi [ji ->]]];
    destruct (member_cases "date_validation" (dateValidation file)) as [[Hd ->] | [Hd [jd ->]]];
    cbn [app map fst In];
    intuition (try congruence; auto).
Qed.

(** C3 (as amended). The export of N records is a JSON array of N elements in
    the order of the collection.  The i-th element starts with original_name,
    the name of the i-th record, and always has a validation object; it has
    renamed, category, subcategory and metadata, and its validation has
    id_validation and date_validation, each exactly when the record holds a
    value for it: what is [undefined] in the record has no member in the
    file.  So an element has the six fields and both validations exactly when
    none of these values is [undefined].  No element has a member preview.
    The suggested name is the fixed prefix, the UTC date as YYYY-MM-DD (for
    the years 0 to 9999) and the extension .json. *)
Theorem export_shape (l : list File) (now : DateUTC) :
  let d := downloadResults l now in
  content d = Some (JsonArr (map exported l)) /\
  List.length (map exported l) = List.length l /\
  (forall (i : nat) (file : File),
     nth_error l i = Some file -> nth_error (map exported l) i = Some (exported file)) /\
  (forall file : File,
     hd_error (members (exported file))
     = Some ("original_name", JsonStr (originalName file))) /\
  (forall file : File, In ("validation", exported_validation file) (members (exported file))) /\
  (forall (file : File) (k : string),
     In k (member_names (exported file)) <->
     k = "original_name" \/
     (k = "renamed" /\ renamed file <> JUndefined) \/
     (k = "category" /\ category file <> JUndefined) \/
     (k = "subcategory" /\ subcategory file <> JUndefined) \/
     (k = "metadata" /\ metadata file <> JUndefined) \/
     k = "validation") /\
  (forall (file : File) (k : string),
     In k (member_names (exported_validation file)) <->
     (k = "id_validation" /\ idValidation file <> JUndefined) \/
     (k = "date_validation" /\ dateValidation file <> JUndefined)) /\
  (forall file : File,
     has_all_fields (exported file) <->
     renamed file <> JUndefined /\ category file <> JUndefined /\
     subcategory file <> JUndefined /\ metadata file <> JUndefined /\
     idValidation file <> JUndefined /\ dateValidation file <> JUndefined) /\
  (forall file : File, ~ In "preview" (member_names (exported file))) /\
  content_type_of d = "application/json" /\
  ((0 <= utc_year now <= 9999)%Z ->
   download d
   = String.concat ""
       [ "mortgage_classification_results_";
         String.concat "" [pad 4 (utc_year now); "-"; pad 2 (utc_month now); "-";
                           pad 2 (utc_day now)];
         ".json" ]).
Proof.
  intros d. unfold d, downloadResults. cbn [content content_type_of download].
  split; [apply stringify_results | ].
  split; [apply length_map | ].
  split; [intros i file H; apply map_nth_error; exact H | ].
  split; [reflexivity | ].
  split.
  { intros file. unfold exported, members. rewrite !in_app_iff.
    do 5 right. left. reflexivity. }
  split; [exact member_names_exported | ].
  split; [exact member_names_exported_validation | ].
  split; [exact has_all_fields_iff | ].
  split.
  { intros file H. apply member_names_exported in H.
    intuition discriminate. }
  split; [reflexivity | ].
  intros Hyear. rewrite (before_T_toISOString now Hyear). reflexivity.
Qed.

Lemma export_shape_witness :
  (0 <= utc_year today <= 9999)%Z /\
  content (downloadResults [passport; paystub] today)
  = Some (JsonArr [exported passport; exported paystub]) /\
  download (downloadResults [passport; paystub] today)
  = "mortgage_classification_results_2026-11-03.json".
Proof.
  assert (Hyear : (0 <= utc_year today <= 9999)%Z) by (cbn; lia).
  destruct (export_shape [passport; paystub] today)
    as (Hcontent & _ & _ & _ & _ & _ & _ & _ & _ & _ & Hname).
  split; [exact Hyear | split; [exact Hcontent | ] ].
  rewrite (Hname Hyear). reflexivity.
Defined.

(** The spec's own scenario: the record of b.png has no validation and no
    renamed name, and its exported element lacks renamed, id_validation and
    date_validation. *)
Lemma export_omits_absent_fields :
  content (downloadResults [paystub] today)
  = Some (JsonArr [ JsonObj [ ("original_name", JsonStr "b.png");
                              ("category", JsonStr "Income");
                              ("subcategory", JsonStr "Paystub");
                              ("metadata", JsonObj []);
                              ("validation", JsonObj []) ] ]) /\
  ~ has_all_fields (JsonObj [ ("original_name", JsonStr "b.png");
                              ("category", JsonStr "Income");
                              ("subcategory", JsonStr "Paystub");
                              ("metadata", JsonObj []);
                              ("validation", JsonObj []) ]).
Proof.
  split; [reflexivity | ].
  intros (n & r & c & s & m & iv & dv & H). discriminate H.
Qed.

(** ** Grouping *)

Lemma find_none_has_own {B : Type} (k : string) (acc : list (string * B)) :
  find (fun p => String.eqb (fst p) k) acc = None <-> has_own k acc = false.
Proof.
  unfold has_own. induction acc as [ | p acc IH]; cbn.
  - split; reflexivity.
  - destruct (String.eqb (fst p) k); cbn; [split; discriminate | exact IH].
Qed.

Lemma has_own_in {B : Type} (k : string) (acc : list (string * B)) :
  has_own k acc = true <-> In k (map fst acc).
Proof.
  unfold has_own. rewrite existsb_exists, in_map_iff. split.
  - intros [p [Hp Hk]]. apply String.eqb_eq in Hk. exists p. split; assumption.
  - intros [p [Hk Hp]]. exists p. split; [exact Hp | apply String.eqb_eq; exact Hk].
Qed.

Lemma has_own_false_in {B : Type} (k : string) (acc : list (string * B)) :
  has_own k acc = false <-> ~ In k (map fst acc).
Proof.
  rewrite <- has_own_in. destruct (has_own k acc); split; congruence.
Qed.

Lemma existsb_eqb_in (k : string) (l : list string) :
  existsb (String.eqb k) l = true <-> In k l.
Proof.
  rewrite existsb_exists. split.
  - intros [x [Hx Hk]]. apply String.eqb_eq in Hk. subst x. exact Hx.
  - intros H. exists k. split; [exact H | apply String.eqb_refl].
Qed.

Lemma first_seen_from_app (seen ks1 ks2 : list string) :
  first_seen_from seen (ks1 ++ ks2) = first_seen_from (first_seen_from seen ks1) ks2.
Proof.
  revert seen. induction ks1 as [ | k ks1 IH]; intros seen; cbn.
  - reflexivity.
  - apply IH.
Qed.

Lemma first_seen_snoc (ks : list string) (k : string) :
  first_seen (ks ++ [k])
  = if existsb (String.eqb k) (first_seen ks) then first_seen ks else first_seen ks ++ [k].
Proof.
  unfold first_seen. rewrite first_seen_from_app. reflexivity.
Qed.

Lemma first_seen_from_in (ks seen : list string) (k : string) :
  In k (first_seen_from seen ks) <-> In k seen \/ In k ks.
Proof.
  revert seen. induction ks as [ | k0 ks IH]; intros seen; cbn.
  - tauto.
  - rewrite IH. destruct (existsb (String.eqb k0) seen) eqn:E.
    + apply existsb_eqb_in in E. split; [tauto | ].
      intros [H | [H | H]]; subst; tauto.
    + rewrite in_app_iff. cbn. tauto.
Qed.

Lemma first_seen_in (ks : list string) (k : string) :
  In k (first_seen ks) <-> In k ks.
Proof.
  unfold first_seen. rewrite first_seen_from_in. cbn. tauto.
Qed.

Lemma find_app_none {B : Type} (p : B -> bool) (l l' : list B) :
  find p l = None -> find p (l ++ l') = find p l'.
Proof.
  induction l as [ | b l IH]; cbn; intros H.
  - reflexivity.
  - destruct (p b); [discriminate H | apply IH; exact H].
Qed.

Section GroupingFacts.

Variable Number_toString : float -> string.
Variable A : Type.
Variable category_of : A -> JsVal.

Lemma push_own_keys (k : string) (a : A) (acc : list (string * list A)) :
  map fst (push_own A k a acc) = map fst acc.
Proof.
  induction acc as [ | [k' arr] acc IH]; cbn.
  - reflexivity.
  - destruct (String.eqb k' k); cbn; [reflexivity | rewrite IH; reflexivity].
Qed.

Lemma push_own_new (k : string) (a : A) (acc : list (string * list A)) :
  has_own k acc = false ->
  push_own A k a (acc ++ [(k, [])]) = acc ++ [(k, [a])].
Proof.
  unfold has_own. induction acc as [ | [k' arr] acc IH]; cbn; intros H.
  - rewrite String.eqb_refl. reflexivity.
  - apply orb_false_iff in H. destruct H as [Hk Hacc].
    rewrite Hk, (IH Hacc). reflexivity.
Qed.

Lemma push_own_in (k : string) (a : A) (acc : list (string * list A)) :
  NoDup (map fst acc) ->
  forall k' arr',
    In (k', arr') (push_own A k a acc) ->
    (k' <> k /\ In (k', arr') acc) \/
    (k' = k /\ exists arr, In (k, arr) acc /\ arr' = arr ++ [a]).
Proof.
  induction acc as [ | [k0 arr0] acc IH]; cbn; intros Hnodup k' arr' Hin.
  - contradiction.
  - inversion Hnodup as [ | ? ? Hnotin Hrest]; subst.
    destruct (String.eqb k0 k) eqn:E.
    + apply String.eqb_eq in E. subst k0.
      destruct Hin as [Hhead | Htail].
      * injection Hhead as <- <-. right. split; [reflexivity | ].
        exists arr0. split; [left; reflexivity | reflexivity].
      * left. split; [ | right; exact Htail].
        intros ->. apply Hnotin. apply in_map_iff.
        exists (k, arr'). split; [reflexivity | exact Htail].
    + apply String.eqb_neq in E.
      destruct Hin as [Hhead | Htail].
      * injection Hhead as <- <-. left. split; [exact E | left; reflexivity].
      * destruct (IH Hrest k' arr' Htail) as [[Hne Hold] | [Heq [arr [Hold Harr]]]].
        -- left. split; [exact Hne | right; exact Hold].
        -- right. split; [exact Heq | ]. exists arr. split; [right; exact Hold | exact Harr].
Qed.

Lemma push_own_length (k : string) (a : A) (acc : list (string * list A)) :
  has_own k acc = true ->
  List.length (List.concat (map snd (push_own A k a acc)))
  = S (List.length (List.concat (map snd acc))).
Proof.
  unfold has_own. induction acc as [ | [k' arr] acc IH]; cbn; intros H.
  - discriminate H.
  - destruct (String.eqb k' k) eqn:E; cbn.
    + rewrite !length_app. cbn. lia.
    + cbn in H. rewrite !length_app, (IH H). lia.
Qed.

Lemma group_step_groupable (acc : list (string * list A)) (a : A) (k : string) :
  group_key Number_toString (category_of a) = Some k ->
  group_step Number_toString A category_of acc a
  = Normal (if has_own k acc then push_own A k a acc else acc ++ [(k, [a])]).
Proof.
  unfold group_key, group_step.
  destruct (ToPropertyKey Number_toString (category_of a)) as [k0 | e]; [ | discriminate].
  destruct (inherited k0) eqn:Hinh; [discriminate | ].
  intros [= ->]. unfold slot.
  destruct (find (fun p => String.eqb (fst p) k) acc) as [p | ] eqn:Hfind.
  - assert (Hown : has_own k acc = true).
    { destruct (has_own k acc) eqn:E; [reflexivity | ].
      apply find_none_has_own in E. congruence. }
    rewrite Hfind, Hown. reflexivity.
  - assert (Hown : has_own k acc = false) by (apply find_none_has_own; exact Hfind).
    rewrite Hinh, Hown.
    rewrite (find_app_none _ _ _ Hfind). cbn. rewrite String.eqb_refl.
    rewrite (push_own_new k a acc Hown). reflexivity.
Qed.

Lemma group_step_not_groupable (acc : list (string * list A)) (a : A) :
  (forall k, In k (map fst acc) -> inherited k = false) ->
  group_key Number_toString (category_of a) = None ->
  exists e : JsError, group_step Number_toString A category_of acc a = Throw e.
Proof.
  unfold group_key, group_step. intros Hkeys.
  destruct (ToPropertyKey Number_toString (category_of a)) as [k | e];
    [ | intros _; exists e; reflexivity].
  destruct (inherited k) eqn:Hinh; [intros _ | discriminate].
  assert (Hfind : find (fun p => String.eqb (fst p) k) acc = None).
  { apply find_none_has_own, has_own_false_in. intros Hin.
    rewrite (Hkeys k Hin) in Hinh. discriminate. }
  unfold slot. rewrite Hfind, Hinh. cbn zeta. try rewrite Hfind. try rewrite Hinh.
  eexists. reflexivity.
Qed.

Lemma keys_of_snoc (l : list A) (a : A) (k : string) :
  group_key Number_toString (category_of a) = Some k ->
  keys_of Number_toString A category_of (l ++ [a])
  = keys_of Number_toString A category_of l ++ [k].
Proof.
  intros Hk. unfold keys_of. rewrite flat_map_app. cbn. rewrite Hk. reflexivity.
Qed.

Lemma keys_of_in (l : list A) (k : string) :
  In k (keys_of Number_toString A category_of l) <->
  exists a, In a l /\ group_key Number_toString (category_of a) = Some k.
Proof.
  unfold keys_of. rewrite in_flat_map. split.
  - intros [a [Ha Hk]]. exists a. split; [exact Ha | ].
    destruct (group_key Number_toString (category_of a)) as [k' | ]; [ | contradiction].
    destruct Hk as [-> | []]. reflexivity.
  - intros [a [Ha Hk]]. exists a. split; [exact Ha | ]. rewrite Hk. left. reflexivity.
Qed.

Lemma filter_snoc (p : A -> bool) (l : list A) (a : A) :
  filter p (l ++ [a]) = filter p l ++ (if p a then [a] else []).
Proof. rewrite filter_app. reflexivity. Qed.

Lemma groups_of_nil : groups_of Number_toString A category_of [] [].
Proof.
  unfold groups_of. cbn. repeat split; try constructor; intros; contradiction.
Qed.

Lemma groups_of_step (acc : list (string * list A)) (l : list A) (a : A) (k : string) :
  groups_of Number_toString A category_of acc l ->
  group_key Number_toString (category_of a) = Some k ->
  groups_of Number_toString A category_of
            (if has_own k acc then push_own A k a acc else acc ++ [(k, [a])])
            (l ++ [a]).
Proof.
  intros (Hkeys & Hnodup & Hinh & Hgroups & Hall & Hlen) Hk.
  assert (Hkinh : inherited k = false).
  { unfold group_key in Hk.
    destruct (ToPropertyKey Number_toString (category_of a)); [ | discriminate].
    destruct (inherited a0) eqn:E; [discriminate | congruence]. }
  assert (Hkey_a : forall k', key_is Number_toString A category_of k' a = String.eqb k k').
  { intros k'. unfold key_is. rewrite Hk. reflexivity. }
  assert (Hseen : existsb (String.eqb k) (first_seen (keys_of Number_toString A category_of l))
                  = has_own k acc).
  { rewrite <- Hkeys. destruct (has_own k acc) eqn:E.
    - apply existsb_eqb_in, has_own_in, E.
    - apply has_own_false_in in E.
      destruct (existsb (String.eqb k) (map fst acc)) eqn:E'; [ | reflexivity].
      apply existsb_eqb_in in E'. contradiction. }
  unfold groups_of.
  rewrite (keys_of_snoc l a k Hk), first_seen_snoc, Hseen.
  destruct (has_own k acc) eqn:Hown.
  - (* the key has its array already *)
    rewrite push_own_keys.
    split; [exact Hkeys | split; [exact Hnodup | split; [exact Hinh | ] ] ].
    split; [ | split].
    + intros k' arr' Hin.
      destruct (push_own_in k a acc Hnodup k' arr' Hin)
        as [[Hne Hold] | [-> [arr [Hold ->]]]].
      * destruct (Hgroups k' arr' Hold) as [-> Hnonempty].
        rewrite filter_snoc, Hkey_a.
        replace (String.eqb k k') with false
          by (symmetry; apply String.eqb_neq; congruence).
        rewrite app_nil_r. split; [reflexivity | exact Hnonempty].
      * destruct (Hgroups k arr Hold) as [-> _].
        rewrite filter_snoc, Hkey_a, String.eqb_refl.
        split; [reflexivity | ]. intros H. apply app_eq_nil in H. destruct H; discriminate.
    + apply Forall_app. split; [exact Hall | ]. constructor; [exists k; exact Hk | constructor].
    + rewrite (push_own_length k a acc Hown), Hlen, length_app. cbn. lia.
  - (* a new key: its array is created at the end *)
    assert (Hnew : ~ In k (map fst acc)) by (apply has_own_false_in; exact Hown).
    rewrite map_app. cbn [map fst].
    split; [rewrite Hkeys; reflexivity | ].
    split.
    { apply NoDup_app.
      - exact Hnodup.
      - constructor; [intros [] | constructor].
      - intros x Hx [<- | []]. apply Hnew. exact Hx. }
    split.
    { intros k' Hin. apply in_app_iff in Hin. destruct Hin as [Hin | [<- | []]];
        [apply Hinh; exact Hin | exact Hkinh]. }
    split; [ | split].
    + intros k' arr' Hin. apply in_app_iff in Hin. destruct Hin as [Hold | [Heq | []]].
      * destruct (Hgroups k' arr' Hold) as [-> Hnonempty].
        rewrite filter_snoc, Hkey_a.
        assert (Hne : k <> k').
        { intros <-. apply Hnew. apply in_map_iff.
          exists (k, filter (key_is Number_toString A category_of k) l).
          split; [reflexivity | exact Hold]. }
        replace (String.eqb k k') with false by (symmetry; apply String.eqb_neq; exact Hne).
        rewrite app_nil_r. split; [reflexivity | exact Hnonempty].
      * injection Heq as <- <-.
        rewrite filter_snoc, Hkey_a, String.eqb_refl.
        assert (Hnone : filter (key_is Number_toString A category_of k) l = []).
        { destruct (filter (key_is Number_toString A category_of k) l) as [ | b rest] eqn:E;
            [reflexivity | exfalso].
          assert (Hb : In b (filter (key_is Number_toString A category_of k) l))
            by (rewrite E; left; reflexivity).
          apply filter_In in Hb. destruct Hb as [Hbl Hbk].
          unfold key_is in Hbk.
          destruct (group_key Number_toString (category_of b)) as [kb | ] eqn:Eb;
            [ | discriminate].
          apply String.eqb_eq in Hbk. subst kb.
          apply Hnew. rewrite Hkeys. apply first_seen_in, keys_of_in.
          exists b. split; assumption. }
        rewrite Hnone. split; [reflexivity | discriminate].
    + apply Forall_app. split; [exact Hall | ]. constructor; [exists k; exact Hk | constructor].
    + rewrite map_app, concat_app, !length_app. cbn. rewrite Hlen. lia.
Qed.

Lemma reduce_groups (rest : list A) :
  forall (acc : list (string * list A)) (l : list A) (g : list (string * list A)),
    groups_of Number_toString A category_of acc l ->
    reduce Number_toString A category_of rest acc = Normal g ->
    groups_of Number_toString A category_of g (l ++ rest).
Proof.
  induction rest as [ | a rest IH]; intros acc l g Hacc Hred; cbn in Hred.
  - injection Hred as <-. rewrite app_nil_r. exact Hacc.
  - destruct (group_key Number_toString (category_of a)) as [k | ] eqn:Hk.
    + rewrite (group_step_groupable acc a k Hk) in Hred.
      replace (l ++ a :: rest) with ((l ++ [a]) ++ rest)
        by (rewrite <- app_assoc; reflexivity).
      apply (IH _ _ _ (groups_of_step acc l a k Hacc Hk) Hred).
    + destruct Hacc as (_ & _ & Hinh & _).
      destruct (group_step_not_groupable acc a Hinh Hk) as [e He].
      rewrite He in Hred. discriminate Hred.
Qed.

Lemma reduce_total (rest : list A) :
  forall (acc : list (string * list A)) (l : list A),
    groups_of Number_toString A category_of acc l ->
    Forall (groupable Number_toString A category_of) rest ->
    exists g, reduce Number_toString A category_of rest acc = Normal g.
Proof.
  induction rest as [ | a rest IH]; intros acc l Hacc Hall; cbn.
  - exists acc. reflexivity.
  - inversion Hall as [ | ? ? [k Hk] Hrest]; subst.
    rewrite (group_step_groupable acc a k Hk).
    apply (IH _ (l ++ [a]) (groups_of_step acc l a k Hacc Hk) Hrest).
Qed.

Lemma reduce_throws (rest : list A) :
  forall (acc : list (string * list A)) (l : list A) (a : A),
    groups_of Number_toString A category_of acc l ->
    In a rest -> group_key Number_toString (category_of a) = None ->
    exists e, reduce Number_toString A category_of rest acc = Throw e.
Proof.
  induction rest as [ | b rest IH]; intros acc l a Hacc Hin Hnone; cbn.
  - contradiction.
  - destruct (group_key Number_toString (category_of b)) as [k | ] eqn:Hk.
    + rewrite (group_step_groupable acc b k Hk).
      destruct Hin as [-> | Hin]; [congruence | ].
      apply (IH _ (l ++ [b]) a (groups_of_step acc l b k Hacc Hk) Hin Hnone).
    + destruct Hacc as (_ & _ & Hinh & _).
      destruct (group_step_not_groupable acc b Hinh Hk) as [e He].
      rewrite He. exists e. reflexivity.
Qed.

(** The grouping of a list, when it succeeds, is the grouping [groups_of]
    describes. *)
Lemma grouped_by_groups (l : list A) (g : list (string * list A)) :
  grouped_by Number_toString A category_of l = Normal g ->
  groups_of Number_toString A category_of g l.
Proof.
  intros H. apply (reduce_groups l [] [] g groups_of_nil H).
Qed.

Lemma grouped_by_total (l : list A) :
  Forall (groupable Number_toString A category_of) l ->
  exists g, grouped_by Number_toString A category_of l = Normal g.
Proof.
  intros H. apply (reduce_total l [] [] groups_of_nil H).
Qed.

Lemma grouped_by_throws (l : list A) (a : A) :
  In a l -> group_key Number_toString (category_of a) = None ->
  exists e, grouped_by Number_toString A category_of l = Throw e.
Proof.
  intros Hin Hnone. apply (reduce_throws l [] [] a groups_of_nil Hin Hnone).
Qed.

End GroupingFacts.

(** X1. When the grouping succeeds it is a partition of the collection: one
    group per category key, the keys in the order they are first met and
    pairwise different; each group holds exactly the records of its key, in
    the order of the collection, and is never empty; every record is in the
    group of its key; the sizes of the groups add up to the size of the
    collection. *)
Theorem grouped_partitions
    (Number_toString : float -> string) (l : list File) (g : list (string * list File)) :
  grouped Number_toString l = Normal g ->
  map fst g = first_seen (keys_of Number_toString File category l) /\
  NoDup (map fst g) /\
  (forall k arr, In (k, arr) g ->
     arr = filter (key_is Number_toString File category k) l /\ arr <> []) /\
  (forall f, In f l ->
     exists k arr, group_key Number_toString (category f) = Some k /\
                   In (k, arr) g /\ In f arr) /\
  List.length (List.concat (map snd g)) = List.length l.
Proof.
  intros H. apply grouped_by_groups in H.
  destruct H as (Hkeys & Hnodup & _ & Hgroups & Hall & Hlen).
  split; [exact Hkeys | split; [exact Hnodup | split; [exact Hgroups | split; [ | exact Hlen] ] ] ].
  intros f Hf. rewrite Forall_forall in Hall. destruct (Hall f Hf) as [k Hk].
  assert (Hin : In k (map fst g)).
  { rewrite Hkeys. apply first_seen_in, keys_of_in. exists f. split; assumption. }
  apply in_map_iff in Hin. destruct Hin as [[k' arr] [Hk' Hin]]. cbn in Hk'. subst k'.
  exists k, arr. split; [exact Hk | split; [exact Hin | ] ].
  destruct (Hgroups k arr Hin) as [-> _].
  apply filter_In. split; [exact Hf | ].
  unfold key_is. rewrite Hk. apply String.eqb_refl.
Qed.

Lemma grouped_partitions_witness :
  grouped write_number three_files
  = Normal [ ("ID", [ file_in_category 1 "a.pdf" (JStr "ID");
                      file_in_category 3 "c.pdf" (JStr "ID") ]);
             ("Income", [ file_in_category 2 "b.png" (JStr "Income") ]) ] /\
  List.length (List.concat (map snd
     [ ("ID", [ file_in_category 1 "a.pdf" (JStr "ID");
                file_in_category 3 "c.pdf" (JStr "ID") ]);
       ("Income", [ file_in_category 2 "b.png" (JStr "Income") ]) ]))
  = List.length three_files.
Proof.
  assert (H : grouped write_number three_files
              = Normal [ ("ID", [ file_in_category 1 "a.pdf" (JStr "ID");
                                  file_in_category 3 "c.pdf" (JStr "ID") ]);
                         ("Income", [ file_in_category 2 "b.png" (JStr "Income") ]) ])
    by reflexivity.
  split; [exact H | ].
  apply (grouped_partitions write_number three_files _ H).
Defined.

(** X2. The grouping succeeds exactly when every record's category can be a
    key of the accumulator.  It throws as soon as one category is the name of
    a member of [Object.prototype] (constructor, toString, __proto__, ...):
    the inherited member is truthy, no array is made, and [push] is missing;
    it also throws on a category that is an object with a member [toString]
    of its own.  The five documented categories, and every string that is no
    such name, never make it throw. *)
Theorem grouped_succeeds_iff (Number_toString : float -> string) (l : list File) :
  ((exists g, grouped Number_toString l = Normal g) <->
   Forall (fun f => exists k, group_key Number_toString (category f) = Some k) l) /\
  (forall f k, In f l -> category f = JStr k -> In k Object_prototype_names ->
     exists e, grouped Number_toString l = Throw e) /\
  (forall f props, In f l -> category f = JObj props -> has_own "toString" props = true ->
     exists e, grouped Number_toString l = Throw e) /\
  (Forall (fun f => exists k, category f = JStr k /\ ~ In k Object_prototype_names) l ->
   exists g, grouped Number_toString l = Normal g).
Proof.
  split; [ | split; [ | split ] ].
  - split.
    + intros [g Hg]. apply grouped_by_groups in Hg.
      destruct Hg as (_ & _ & _ & _ & Hall & _). exact Hall.
    + intros Hall. apply grouped_by_total. exact Hall.
  - intros f k Hf Hcat Hk. apply (grouped_by_throws Number_toString File category l f Hf).
    assert (Hinh : inherited k = true) by (apply existsb_eqb_in; exact Hk).
    unfold group_key. rewrite Hcat. cbn [ToPropertyKey ToString]. rewrite Hinh.
    reflexivity.
  - intros f props Hf Hcat Hown.
    apply (grouped_by_throws Number_toString File category l f Hf).
    unfold group_key. rewrite Hcat. cbn [ToPropertyKey ToString]. rewrite Hown.
    reflexivity.
  - intros Hall. apply grouped_by_total.
    rewrite Forall_forall in Hall |- *. intros f Hf.
    destruct (Hall f Hf) as [k [Hcat Hk]]. exists k.
    assert (Hinh : inherited k = false).
    { destruct (inherited k) eqn:E; [ | reflexivity].
      apply existsb_eqb_in in E. contradiction. }
    unfold group_key. rewrite Hcat. cbn [ToPropertyKey ToString]. rewrite Hinh.
    reflexivity.
Qed.

Lemma grouped_succeeds_iff_witness :
  (exists e, grouped write_number
               (three_files ++ [file_in_category 4 "d.pdf" (JStr "constructor")])
             = Throw e) /\
  (exists g, grouped write_number three_files = Normal g).
Proof.
  destruct (grouped_succeeds_iff write_number
              (three_files ++ [file_in_category 4 "d.pdf" (JStr "constructor")]))
    as (_ & Hthrow & _).
  destruct (grouped_succeeds_iff write_number three_files) as (_ & _ & _ & Hok).
  split.
  - apply (Hthrow (file_in_category 4 "d.pdf" (JStr "constructor")) "constructor").
    + apply in_app_iff. right. left. reflexivity.
    + reflexivity.
    + left. reflexivity.
  - apply Hok. repeat constructor; eexists; (split; [reflexivity | ]);
      cbn; intuition discriminate.
Defined.

(** ** The order of enumeration *)

Lemma insert_by_index_in {B : Type} (n : N) (p : string * B) (l : list (N * (string * B))) :
  forall x, In x (insert_by_index n p l) <-> x = (n, p) \/ In x l.
Proof.
  induction l as [ | [m q] l IH]; intros x; cbn.
  - intuition congruence.
  - destruct (n <=? m)%N; cbn; [intuition congruence | ].
    rewrite IH. intuition congruence.
Qed.

Lemma insert_by_index_perm {B : Type} (n : N) (p : string * B) (l : list (N * (string * B))) :
  Permutation (insert_by_index n p l) ((n, p) :: l).
Proof.
  induction l as [ | [m q] l IH]; cbn.
  - apply Permutation_refl.
  - destruct (n <=? m)%N; [apply Permutation_refl | ].
    apply perm_trans with ((m, q) :: (n, p) :: l);
      [apply perm_skip; exact IH | apply perm_swap].
Qed.

Lemma insert_by_index_sorted {B : Type} (n : N) (p : string * B)
    (l : list (N * (string * B))) :
  StronglySorted (fun x y => (fst x <= fst y)%N) l ->
  StronglySorted (fun x y => (fst x <= fst y)%N) (insert_by_index n p l).
Proof.
  induction l as [ | [m q] l IH]; cbn; intros Hs.
  - constructor; constructor.
  - inversion Hs as [ | ? ? Hrest Hall]; subst.
    destruct (n <=? m)%N eqn:E.
    + apply N.leb_le in E. constructor; [exact Hs | ].
      constructor; [exact E | ].
      rewrite Forall_forall in Hall |- *. intros x Hx. specialize (Hall x Hx).
      cbn in *. lia.
    + apply N.leb_gt in E. constructor; [apply IH; exact Hrest | ].
      rewrite Forall_forall in Hall |- *. intros x Hx.
      apply insert_by_index_in in Hx. destruct Hx as [-> | Hx].
      * cbn. lia.
      * apply Hall. exact Hx.
Qed.

Lemma index_entries_sorted {B : Type} (props : list (string * B)) :
  StronglySorted (fun x y => (fst x <= fst y)%N) (index_entries props).
Proof.
  induction props as [ | p props IH]; cbn.
  - constructor.
  - destruct (array_index (fst p)); [apply insert_by_index_sorted | ]; exact IH.
Qed.

Lemma index_entries_labels {B : Type} (props : list (string * B)) :
  forall x, In x (index_entries props) ->
            array_index (fst (snd x)) = Some (fst x) /\ In (snd x) props.
Proof.
  induction props as [ | p props IH]; cbn; intros x Hx.
  - contradiction.
  - destruct (array_index (fst p)) as [n | ] eqn:E.
    + apply insert_by_index_in in Hx. destruct Hx as [-> | Hx].
      * cbn. split; [exact E | left; reflexivity].
      * destruct (IH x Hx) as [H1 H2]. split; [exact H1 | right; exact H2].
    + destruct (IH x Hx) as [H1 H2]. split; [exact H1 | right; exact H2].
Qed.

Lemma index_entries_perm {B : Type} (props : list (string * B)) :
  Permutation (map snd (index_entries props)) (filter (fun p => negb (is_named p)) props).
Proof.
  induction props as [ | p props IH]; cbn.
  - apply Permutation_refl.
  - unfold is_named at 1. destruct (array_index (fst p)) as [n | ]; cbn.
    + apply perm_trans with (map snd ((n, p) :: index_entries props)).
      * apply Permutation_map, insert_by_index_perm.
      * cbn. apply perm_skip. exact IH.
    + exact IH.
Qed.

Lemma filter_split_perm {B : Type} (q : B -> bool) (l : list B) :
  Permutation (filter (fun b => negb (q b)) l ++ filter q l) l.
Proof.
  induction l as [ | b l IH]; cbn.
  - apply Permutation_refl.
  - destruct (q b); cbn.
    + apply Permutation_sym, Permutation_cons_app, Permutation_sym. exact IH.
    + apply perm_skip. exact IH.
Qed.

Lemma own_entries_perm {B : Type} (props : list (string * B)) :
  Permutation (own_entries props) props.
Proof.
  unfold own_entries.
  apply perm_trans with (filter (fun p => negb (is_named p)) props ++ filter is_named props).
  - apply Permutation_app_tail, index_entries_perm.
  - apply filter_split_perm.
Qed.

Lemma own_entries_named {B : Type} (props : list (string * B)) :
  Forall (fun p => array_index (fst p) = None) props -> own_entries props = props.
Proof.
  intros H. unfold own_entries.
  assert (Hidx : index_entries props = []).
  { induction H as [ | p props Hp _ IH]; cbn; [reflexivity | ]. rewrite Hp. exact IH. }
  rewrite Hidx. cbn. apply filter_all.
  rewrite Forall_forall in H. intros p Hp. unfold is_named. rewrite (H p Hp). reflexivity.
Qed.

Lemma own_entries_keys {B : Type} (props : list (string * B)) :
  map fst (own_entries props)
  = map (fun x => fst (snd x)) (index_entries props)
    ++ filter (fun k => negb (is_index_key k)) (map fst props).
Proof.
  unfold own_entries. rewrite map_app, map_map. f_equal.
  induction props as [ | p props IH]; cbn.
  - reflexivity.
  - unfold is_named at 1, is_index_key at 1.
    destruct (array_index (fst p)); cbn; rewrite IH; reflexivity.
Qed.

Lemma index_keys_sorted {B : Type} (props : list (string * B)) :
  StronglySorted index_ordered (map (fun x => fst (snd x)) (index_entries props)) /\
  Forall (fun k => is_index_key k = true) (map (fun x => fst (snd x)) (index_entries props)).
Proof.
  pose proof (index_entries_sorted props) as Hs.
  pose proof (index_entries_labels props) as Hl.
  induction Hs as [ | x l Hs IH Hall]; cbn.
  - split; constructor.
  - assert (Hl' : forall y, In y l ->
                    array_index (fst (snd y)) = Some (fst y) /\ In (snd y) props).
    { intros y Hy. apply Hl. right. exact Hy. }
    destruct (IH Hl') as [IHs IHi].
    destruct (Hl x (or_introl eq_refl)) as [Hx _].
    split.
    + constructor; [exact IHs | ].
      rewrite Forall_forall in Hall |- *. intros k Hk.
      apply in_map_iff in Hk. destruct Hk as [y [<- Hy]].
      destruct (Hl' y Hy) as [Hyi _].
      exists (fst x), (fst y). split; [exact Hx | split; [exact Hyi | apply Hall; exact Hy] ].
    + constructor; [ | exact IHi]. unfold is_index_key. rewrite Hx. reflexivity.
Qed.

(** ** What is shown *)

Lemma getCategoryColor_class (k : string) :
  inherited k = false ->
  exists c, getCategoryColor k = ClassName c /\ In c (map snd colors).
Proof.
  intros Hinh. unfold getCategoryColor.
  destruct (find (fun p => String.eqb (fst p) k) colors) as [p | ] eqn:E.
  - apply find_some in E. destruct E as [Hin _].
    cbn in Hin.
    destruct Hin as [<- | [<- | [<- | [<- | [<- | []]]]]]; cbn;
      eexists; (split; [reflexivity | tauto]).
  - rewrite Hinh. exists "bg-gray-600". split; [reflexivity | cbn; tauto].
Qed.

Lemma list_sum_perm {B : Type} (f : B -> nat) (l l' : list B) :
  Permutation l l' -> list_sum (map f l) = list_sum (map f l').
Proof.
  unfold list_sum. induction 1; cbn [map fold_right]; lia.
Qed.

Lemma length_concat_sum {B : Type} (g : list (string * list B)) :
  List.length (List.concat (map snd g))
  = list_sum (map (fun entry => List.length (snd entry)) g).
Proof.
  unfold list_sum. induction g as [ | [k arr] g IH]; cbn [map snd List.concat fold_right];
    [reflexivity | ].
  rewrite length_app, IH. reflexivity.
Qed.

Lemma render_normal (Number_toString : float -> string) (s : State) (v : View) :
  render Number_toString s = Normal v ->
  exists g,
    grouped Number_toString (files s) = Normal g /\
    processing v = loading s /\
    error_banner v = match error s with
                     | Some msg => if negb (String.eqb msg "") then Some msg else None
                     | None => None
                     end /\
    action_buttons v = Nat.ltb 0 (List.length (files s)) /\
    results v = (if Nat.ltb 0 (List.length (own_entries g))
                 then Some (documents_label (List.length (files s)),
                            map block_of (own_entries g))
                 else None) /\
    preview_modal v = selectedFile s /\
    empty_state v = (Nat.eqb (List.length (files s)) 0 && negb (loading s)).
Proof.
  unfold render.
  destruct (grouped Number_toString (files s)) as [g | e]; [ | discriminate].
  intros [= <-]. exists g. cbn. repeat split; reflexivity.
Qed.

Lemma groups_empty_iff (Number_toString : float -> string) (l : list File)
    (g : list (string * list File)) :
  grouped Number_toString l = Normal g -> (g = [] <-> l = []).
Proof.
  intros H. apply grouped_by_groups in H.
  destruct H as (_ & _ & _ & Hgroups & _ & Hlen). split.
  - intros ->. cbn in Hlen. destruct l; [reflexivity | discriminate Hlen].
  - intros ->. destruct g as [ | [k arr] g]; [reflexivity | ].
    destruct (Hgroups k arr (or_introl eq_refl)) as [Harr Hne].
    cbn in Harr. contradiction.
Qed.

(** X3. When the page renders with results, its blocks are the groups of the
    collection: one block per category key and no key twice; a block's rows
    are the records of its key with their validation icons, in the order of
    the collection; its count is the number of its rows and is never zero;
    its colour is one of the five class names of [colors]; the counts add up
    to the number in the label, the size of the collection. *)
Theorem render_blocks
    (Number_toString : float -> string) (s : State) (v : View)
    (label : string) (blocks : list CategoryBlock) :
  render Number_toString s = Normal v ->
  results v = Some (label, blocks) ->
  label = documents_label (List.length (files s)) /\
  Permutation (map block_category blocks)
              (first_seen (keys_of Number_toString File category (files s))) /\
  NoDup (map block_category blocks) /\
  Forall (fun b =>
            block_rows b
            = map (fun f => (getValidationIcon f, f))
                  (filter (key_is Number_toString File category (block_category b)) (files s)) /\
            block_count b = List.length (block_rows b) /\
            0 < block_count b /\
            exists c, block_colour b = ClassName c /\ In c (map snd colors))
         blocks /\
  list_sum (map block_count blocks) = List.length (files s).
Proof.
  intros Hrender Hresults.
  destruct (render_normal _ _ _ Hrender) as (g & Hg & _ & _ & _ & Hres & _).
  rewrite Hres in Hresults.
  destruct (Nat.ltb 0 (List.length (own_entries g))); [ | discriminate].
  injection Hresults as <- <-.
  pose proof (grouped_by_groups _ _ _ _ _ Hg) as (Hkeys & Hnodup & Hinh & Hgroups & _ & Hlen).
  pose proof (own_entries_perm g) as Hperm.
  assert (Hcats : map block_category (map block_of (own_entries g)) = map fst (own_entries g)).
  { rewrite map_map. reflexivity. }
  split; [reflexivity | ].
  split.
  { rewrite Hcats, <- Hkeys. apply Permutation_map. exact Hperm. }
  split.
  { rewrite Hcats. apply (Permutation_NoDup (l := map fst g)); [ | exact Hnodup].
    apply Permutation_sym, Permutation_map. exact Hperm. }
  split.
  { apply Forall_map. rewrite Forall_forall. intros [k arr] Hin.
    apply (Permutation_in _ Hperm) in Hin.
    destruct (Hgroups k arr Hin) as [Harr Hne].
    unfold block_of. cbn [fst snd block_rows block_count block_colour block_category].
    split; [rewrite <- Harr; reflexivity | ].
    split; [rewrite length_map; reflexivity | ].
    split.
    - destruct arr; [contradiction | cbn; lia].
    - apply getCategoryColor_class, Hinh. apply in_map_iff.
      exists (k, arr). split; [reflexivity | exact Hin]. }
  rewrite map_map. cbn [block_of block_count].
  rewrite (list_sum_perm (fun entry => List.length (snd entry)) _ _ Hperm).
  rewrite <- length_concat_sum. exact Hlen.
Qed.

Lemma render_blocks_witness :
  let s := mkState three_files false None None in
  exists v label blocks,
    render write_number s = Normal v /\
    results v = Some (label, blocks) /\
    label = "3 documents processed" /\
    list_sum (map block_count blocks) = 3.
Proof.
  intros s.
  destruct (render write_number s) as [v | e] eqn:Hrender; [ | discriminate Hrender].
  destruct (results v) as [[label blocks] | ] eqn:Hresults.
  - exists v, label, blocks.
    destruct (render_blocks write_number s v label blocks Hrender Hresults)
      as (Hlabel & _ & _ & _ & Hsum).
    split; [reflexivity | split; [exact Hresults | split; [exact Hlabel | exact Hsum] ] ].
  - exfalso. injection Hrender as <-. discriminate Hresults.
Defined.

(** X4. The blocks are listed in the order [Object.entries] walks the
    grouping: when no category key is an array index (the canonical writing
    of an integer below 2^32 - 1), in the order the categories are first met
    in the collection; otherwise the keys that are array indices come first,
    in ascending numeric order, and the others follow in the order they are
    first met. *)
Theorem render_block_order
    (Number_toString : float -> string) (s : State) (v : View)
    (label : string) (blocks : list CategoryBlock) :
  render Number_toString s = Normal v ->
  results v = Some (label, blocks) ->
  (Forall (fun k => array_index k = None)
          (first_seen (keys_of Number_toString File category (files s))) ->
   map block_category blocks = first_seen (keys_of Number_toString File category (files s))) /\
  exists indices,
    map block_category blocks
    = indices ++ filter (fun k => negb (is_index_key k))
                        (first_seen (keys_of Number_toString File category (files s))) /\
    Forall (fun k => is_index_key k = true) indices /\
    StronglySorted index_ordered indices.
Proof.
  intros Hrender Hresults.
  destruct (render_normal _ _ _ Hrender) as (g & Hg & _ & _ & _ & Hres & _).
  rewrite Hres in Hresults.
  destruct (Nat.ltb 0 (List.length (own_entries g))); [ | discriminate].
  injection Hresults as <- <-.
  pose proof (grouped_by_groups _ _ _ _ _ Hg) as (Hkeys & _).
  assert (Hcats : map block_category (map block_of (own_entries g)) = map fst (own_entries g)).
  { rewrite map_map. reflexivity. }
  rewrite Hcats, <- Hkeys. split.
  - intros Hnamed. rewrite own_entries_named; [reflexivity | ].
    rewrite Forall_forall in Hnamed |- *. intros p Hp. apply Hnamed.
    apply in_map. exact Hp.
  - exists (map (fun x => fst (snd x)) (index_entries g)).
    destruct (index_keys_sorted g) as [Hsorted Hidx].
    split; [apply own_entries_keys | split; [exact Hidx | exact Hsorted] ].
Qed.

Lemma render_block_order_witness :
  let s := mkState three_files false None None in
  exists v label blocks,
    render write_number s = Normal v /\
    results v = Some (label, blocks) /\
    map block_category blocks = ["ID"; "Income"].
Proof.
  intros s.
  destruct (render write_number s) as [v | e] eqn:Hrender; [ | discriminate Hrender].
  destruct (results v) as [[label blocks] | ] eqn:Hresults.
  - exists v, label, blocks.
    destruct (render_block_order write_number s v label blocks Hrender Hresults)
      as (Hnamed & _).
    split; [reflexivity | split; [exact Hresults | ] ].
    apply Hnamed. repeat constructor.
  - exfalso. injection Hrender as <-. discriminate Hresults.
Defined.

(** Categories that read as years are listed before the others, the earlier
    year first, whatever the order of the collection. *)
Remark years_are_listed_first :
  match render write_number (mkState dated_files false None None) with
  | Normal v => option_map (fun r => map block_category (snd r)) (results v)
  | Throw _ => None
  end = Some ["2023"; "2024"; "Income"].
Proof. reflexivity. Qed.

(** X5. What a rendering shows, as far as it depends on the state: the
    results and the action buttons appear together, exactly when the
    collection is not empty; the empty state appears exactly when the
    collection is empty and nothing is loading, so never beside them; the
    error banner appears exactly for a message that is not empty; the preview
    is open exactly while a record is selected, in the collection or not. *)
Theorem render_visibility (Number_toString : float -> string) (s : State) (v : View) :
  render Number_toString s = Normal v ->
  (action_buttons v = true <-> files s <> []) /\
  (results v <> None <-> files s <> []) /\
  (empty_state v = true <-> files s = [] /\ loading s = false) /\
  (empty_state v = true -> action_buttons v = false /\ results v = None) /\
  (forall msg, error_banner v = Some msg <-> error s = Some msg /\ msg <> "") /\
  preview_modal v = selectedFile s /\
  processing v = loading s.
Proof.
  intros Hrender.
  destruct (render_normal _ _ _ Hrender)
    as (g & Hg & Hproc & Hbanner & Hbuttons & Hres & Hmodal & Hempty).
  pose proof (groups_empty_iff _ _ _ Hg) as Hge.
  assert (Hlen : List.length (own_entries g) = List.length g)
    by (apply Permutation_length, own_entries_perm).
  assert (Hb : action_buttons v = true <-> files s <> []).
  { rewrite Hbuttons. destruct (files s); cbn; split; congruence. }
  assert (Hr : results v <> None <-> files s <> []).
  { rewrite Hres, Hlen. destruct g as [ | entry g]; cbn.
    - split; [congruence | ]. intros Hne. exfalso. apply Hne, Hge. reflexivity.
    - split; [ | discriminate]. intros _ Hnil. apply Hge in Hnil. discriminate Hnil. }
  assert (He : empty_state v = true <-> files s = [] /\ loading s = false).
  { rewrite Hempty, andb_true_iff, negb_true_iff, Nat.eqb_eq.
    destruct (files s); cbn; intuition congruence. }
  split; [exact Hb | split; [exact Hr | split; [exact He | ] ] ].
  split.
  { intros H. apply He in H. destruct H as [Hnil _]. split.
    - destruct (action_buttons v) eqn:E; [ | reflexivity].
      exfalso. apply (proj1 Hb); [reflexivity | exact Hnil].
    - destruct (results v) eqn:E; [ | reflexivity].
      exfalso. apply (proj1 Hr); [discriminate | exact Hnil]. }
  split; [ | split; [exact Hmodal | exact Hproc] ].
  intros msg. rewrite Hbanner. destruct (error s) as [m | ].
  - destruct (String.eqb m "") eqn:E; cbn.
    + apply String.eqb_eq in E. subst m. split; [discriminate | ].
      intros [[= <-] Hne]. contradiction.
    + apply String.eqb_neq in E. split.
      * intros [= <-]. split; [reflexivity | exact E].
      * intros [[= <-] _]. reflexivity.
  - split; [discriminate | intros [H _]; discriminate H].
Qed.

Lemma render_visibility_witness :
  let s := mkState [] false None None in
  exists v, render write_number s = Normal v /\
            empty_state v = true /\ action_buttons v = false /\ results v = None.
Proof.
  intros s.
  destruct (render write_number s) as [v | e] eqn:Hrender; [ | discriminate Hrender].
  exists v.
  destruct (render_visibility write_number s v Hrender) as (_ & _ & He & Hexcl & _).
  assert (Hempty : empty_state v = true) by (apply He; split; reflexivity).
  destruct (Hexcl Hempty) as [Hb Hr].
  split; [reflexivity | split; [exact Hempty | split; [exact Hb | exact Hr] ] ].
Defined.

Lemma user_message_not_empty (g : GatewayError) : user_message g <> "".
Proof. destruct g; discriminate. Qed.

Lemma onDrop_settle_error (settled : Settled) (w : World) :
  error (state (exec (onDrop_settle settled) w)) = error (state w) \/
  exists e, error (state (exec (onDrop_settle settled) w))
            = Some (user_message (gateway_error e)).
Proof.
  unfold exec. rewrite onDrop_settle_world. destruct settled as [data | err].
  - pose proof (ingest_state data w) as Hst.
    destruct (ingest data w) as [[newFiles | e] w']; cbn [snd] in *.
    + left. unfold appended, with_state. cbn. rewrite Hst. reflexivity.
    + right. exists e. reflexivity.
  - right. exists err. reflexivity.
Qed.

(** X6. No handler ever stores an empty message: from a state whose error is
    not the empty string, sending, settling and every click lead to such a
    state again, and the freshly mounted component is in one.  So the banner,
    which tests the message for truthiness, shows every error the state
    holds; in particular every rejected submission is visible. *)
Theorem error_is_always_visible (w : World) :
  error (state w) <> Some "" ->
  (forall acceptedFiles, error (state (exec (onDrop_send acceptedFiles) w)) <> Some "") /\
  (forall settled, error (state (exec (onDrop_settle settled) w)) <> Some "") /\
  (forall ev, error (state (exec (handle ev) w)) <> Some "") /\
  (forall Number_toString v,
     render Number_toString (state w) = Normal v -> error_banner v = error (state w)) /\
  (forall Number_toString err v,
     render Number_toString (state (exec (onDrop_settle (Rejected err)) w)) = Normal v ->
     error_banner v = Some (user_message (gateway_error err))).
Proof.
  intros Hw.
  split; [intros acceptedFiles; discriminate | ].
  split.
  { intros settled. destruct (onDrop_settle_error settled w) as [-> | [e ->]];
      [exact Hw | ].
    intros [= H]. apply (user_message_not_empty _ H). }
  split.
  { intros ev. destruct ev; try exact Hw; discriminate. }
  split.
  - intros Number_toString v Hrender.
    destruct (render_normal _ _ _ Hrender) as (_ & _ & _ & Hbanner & _).
    rewrite Hbanner. destruct (error (state w)) as [msg | ]; [ | reflexivity].
    destruct (String.eqb msg "") eqn:E; [ | reflexivity].
    apply String.eqb_eq in E. subst msg. contradiction.
  - intros Number_toString err v Hrender.
    destruct (render_normal _ _ _ Hrender) as (_ & _ & _ & Hbanner & _).
    rewrite Hbanner, onDrop_settle_rejected_error.
    destruct (String.eqb (user_message (gateway_error err)) "") eqn:E; [ | reflexivity].
    apply String.eqb_eq in E. destruct (user_message_not_empty _ E).
Qed.

Lemma error_is_always_visible_witness :
  let w := mount same_millisecond close_draws in
  error (state w) <> Some "" /\
  exists v,
    render write_number (state (exec (onDrop_settle (Rejected timeout_error)) w)) = Normal v /\
    error_banner v = Some (user_message Timeout).
Proof.
  intros w.
  assert (Hw : error (state w) <> Some "") by discriminate.
  split; [exact Hw | ].
  destruct (render write_number (state (exec (onDrop_settle (Rejected timeout_error)) w)))
    as [v | e] eqn:Hrender; [ | discriminate Hrender].
  exists v. split; [reflexivity | ].
  destruct (error_is_always_visible w Hw) as (_ & _ & _ & _ & Hrejected).
  apply (Hrejected write_number timeout_error v Hrender).
Defined.

Lemma renamed_entries_in (clock rng : nat -> float) (entries : list (string * JsVal))
    (name : string) (data : JsVal) :
  In (name, data) entries ->
  forall i j, exists fid, In (renamed_entry fid name data) (renamed_entries clock rng i j entries).
Proof.
  induction entries as [ | [n d] entries IH]; cbn; intros Hin i j.
  - contradiction.
  - destruct Hin as [[= -> ->] | Hin].
    + eexists. left. reflexivity.
    + destruct (IH Hin (S i) (S j)) as [fid Hfid]. exists fid. right. exact Hfid.
Qed.

(** X7. A response is ingested whatever its categories are, but one entry
    whose category is the name of a member of [Object.prototype] (for
    instance constructor) is enough to make every rendering of the new state
    throw: the submission ends without error, and the page can no longer be
    drawn. *)
Theorem inherited_category_breaks_rendering
    (Number_toString : float -> string) (w : World) (acceptedFiles : list FileBlob)
    (data : JsVal) (entries : list (string * JsVal)) (name k : string) (entry : JsVal) :
  Object_entries data = Normal entries ->
  Forall (fun e => readable (snd e)) entries ->
  In (name, entry) entries ->
  OptGet entry "category" = JStr k ->
  In k Object_prototype_names ->
  let w' := exec (onDrop acceptedFiles (Fulfilled data)) w in
  error (state w') = None /\
  loading (state w') = false /\
  exists e, render Number_toString (state w') = Throw e.
Proof.
  intros Hentries Hreadable Hin Hcat Hk w'.
  unfold w', exec.
  rewrite (onDrop_fulfilled_world acceptedFiles data entries w Hentries Hreadable).
  cbn [snd]. split; [reflexivity | split; [reflexivity | ] ].
  unfold render.
  destruct (renamed_entries_in (Date_now w) (Math_random w) entries name entry Hin
                               (now_calls w) (random_calls w)) as [fid Hfid].
  destruct (grouped_by_throws Number_toString File category
              (files (state w) ++ renamed_entries (Date_now w) (Math_random w)
                                                  (now_calls w) (random_calls w) entries)
              (renamed_entry fid name entry)) as [e He].
  - apply in_app_iff. right. exact Hfid.
  - assert (Hinh : inherited k = true) by (apply existsb_eqb_in; exact Hk).
    unfold group_key. cbn [renamed_entry category]. rewrite Hcat.
    cbn [ToPropertyKey ToString]. rewrite Hinh. reflexivity.
  - exists e. unfold appended, advance, with_state, exec. rewrite onDrop_send_world.
    cbn [state files snd]. unfold grouped. rewrite He. reflexivity.
Qed.

Lemma inherited_category_breaks_rendering_witness :
  let data := JObj [("a.pdf", JObj [("category", JStr "constructor")])] in
  let w' := exec (onDrop [a_pdf] (Fulfilled data)) (mount same_millisecond close_draws) in
  Forall (fun e => readable (snd e)) [("a.pdf", JObj [("category", JStr "constructor")])] /\
  error (state w') = None /\
  exists e, render write_number (state w') = Throw e.
Proof.
  intros data w'.
  assert (Hreadable : Forall (fun e => readable (snd e))
                             [("a.pdf", JObj [("category", JStr "constructor")])]).
  { repeat constructor; discriminate. }
  split; [exact Hreadable | ].
  destruct (inherited_category_breaks_rendering write_number
              (mount same_millisecond close_draws) [a_pdf] data
              [("a.pdf", JObj [("category", JStr "constructor")])]
              "a.pdf" "constructor" (JObj [("category", JStr "constructor")])
              eq_refl Hreadable (or_introl eq_refl) eq_refl (or_introl eq_refl))
    as (Herr & _ & Hthrow).
  split; [exact Herr | exact Hthrow].
Defined.

(** ** Clicks *)

Lemma subsequence_refl {B : Type} (l : list B) : subsequence l l.
Proof. induction l; constructor; assumption. Qed.

Lemma subsequence_nil_l {B : Type} (l : list B) : subsequence [] l.
Proof. induction l; constructor; assumption. Qed.

Lemma subsequence_filter {B : Type} (p : B -> bool) (l : list B) :
  subsequence (filter p l) l.
Proof.
  induction l as [ | b l IH]; cbn; [constructor | ].
  destruct (p b); constructor; exact IH.
Qed.

Lemma subsequence_trans {B : Type} (l1 l2 l3 : list B) :
  subsequence l1 l2 -> subsequence l2 l3 -> subsequence l1 l3.
Proof.
  intros H12 H23. revert l1 H12.
  induction H23 as [ | a l2 l3 H23 IH | a l2 l3 H23 IH]; intros l1 H12.
  - exact H12.
  - inversion H12; subst.
    + constructor. apply IH. assumption.
    + constructor. apply IH. assumption.
  - constructor. apply IH. exact H12.
Qed.

Lemma subsequence_in {B : Type} (l' l : list B) :
  subsequence l' l -> forall b, In b l' -> In b l.
Proof.
  induction 1 as [ | a l' l H IH | a l' l H IH]; intros b Hb.
  - exact Hb.
  - destruct Hb as [-> | Hb]; [left; reflexivity | right; apply IH; exact Hb].
  - right. apply IH. exact Hb.
Qed.

Lemma ids_distinct_subsequence (l' l : list File) :
  subsequence l' l -> ids_distinct l = true -> ids_distinct l' = true.
Proof.
  induction 1 as [ | f l' l H IH | f l' l H IH]; cbn; intros Hd.
  - reflexivity.
  - apply andb_true_iff in Hd. destruct Hd as [Hf Hl].
    rewrite (IH Hl), andb_true_r.
    rewrite forallb_forall in Hf |- *. intros g Hg.
    apply Hf. apply (subsequence_in _ _ H). exact Hg.
  - apply andb_true_iff in Hd. destruct Hd as [_ Hl]. apply IH. exact Hl.
Qed.

Lemma handle_shrinks (ev : UiEvent) (w : World) :
  subsequence (files (state (exec (handle ev) w))) (files (state w)) /\
  loading (state (exec (handle ev) w)) = loading (state w) /\
  requests (exec (handle ev) w) = requests w.
Proof.
  destruct ev; cbn; repeat split; try apply subsequence_refl.
  - apply subsequence_nil_l.
  - apply subsequence_filter.
Qed.

(** X8. Whatever the user clicks, in any number and order (dismiss, clear,
    preview, remove, close): no click throws, sends a request or touches
    [loading]; the collection afterwards is the collection before with some
    records left out, the others in their order (nothing is added, nothing
    is moved); and identifiers that were pairwise different stay so. *)
Theorem clicks_only_shrink (evs : list UiEvent) (w : World) :
  let w' := exec (handle_all evs) w in
  fst (handle_all evs w) = Normal tt /\
  subsequence (files (state w')) (files (state w)) /\
  loading (state w') = loading (state w) /\
  requests w' = requests w /\
  (ids_distinct (files (state w)) = true -> ids_distinct (files (state w')) = true).
Proof.
  cbv zeta.
  assert (H : fst (handle_all evs w) = Normal tt /\
              subsequence (files (state (exec (handle_all evs) w))) (files (state w)) /\
              loading (state (exec (handle_all evs) w)) = loading (state w) /\
              requests (exec (handle_all evs) w) = requests w).
  { revert w. induction evs as [ | ev evs IH]; intros w.
    - cbn. repeat split. apply subsequence_refl.
    - pose proof (handle_returns ev w) as Hret.
      pose proof (handle_shrinks ev w) as (Hsub & Hload & Hreq).
      unfold exec in *. cbn [handle_all]. unfold bind.
      destruct (handle ev w) as [[[] | e] w1]; cbn [fst snd] in *; [ | discriminate Hret].
      destruct (IH w1) as (IHret & IHsub & IHload & IHreq).
      split; [exact IHret | ].
      split; [apply (subsequence_trans _ _ _ IHsub Hsub) | ].
      split; congruence. }
  destruct H as (Hret & Hsub & Hload & Hreq).
  repeat (split; [assumption | ]).
  apply ids_distinct_subsequence. exact Hsub.
Qed.

Lemma filter_comm {B : Type} (p q : B -> bool) (l : list B) :
  filter p (filter q l) = filter q (filter p l).
Proof.
  induction l as [ | b l IH]; cbn; [reflexivity | ].
  destruct (p b) eqn:Hp, (q b) eqn:Hq; cbn; rewrite ?Hp, ?Hq, IH; reflexivity.
Qed.

(** X9. Removals commute, and clearing absorbs them: removing two ids in
    either order leaves the same world; clearing after a removal, or a
    removal after clearing, leaves what clearing alone leaves; clearing twice
    is clearing once. *)
Theorem removals_commute (w : World) (a b : float) :
  exec (removeFile a) (exec (removeFile b) w) = exec (removeFile b) (exec (removeFile a) w) /\
  exec clearFiles (exec (removeFile a) w) = exec clearFiles w /\
  exec (removeFile a) (exec clearFiles w) = exec clearFiles w /\
  exec clearFiles (exec clearFiles w) = exec clearFiles w.
Proof.
  unfold exec. rewrite !removeFile_world. unfold with_state. cbn.
  split; [ | repeat split].
  rewrite filter_comm. reflexivity.
Qed.

(** ** Responses *)

Lemma onDrop_settle_readable (data : JsVal) (entries : list (string * JsVal)) (w : World) :
  Object_entries data = Normal entries ->
  Forall (fun e => readable (snd e)) entries ->
  onDrop_settle (Fulfilled data) w =
    (Normal tt,
     appended (renamed_entries (Date_now w) (Math_random w)
                               (now_calls w) (random_calls w) entries)
              (advance (List.length entries) w)).
Proof.
  intros Hentries Hreadable. rewrite onDrop_settle_world.
  unfold ingest, bind, lift.
  rewrite Hentries, (mapM_newFile_readable entries Hreadable). reflexivity.
Qed.

Lemma newFile_unreadable (name : string) (bad : JsVal) (w : World) :
  bad = JNull \/ bad = JUndefined ->
  newFile (name, bad) w = (Throw (TypeError_reading bad "renamed"), advance 1 w).
Proof.
  intros [-> | ->]; reflexivity.
Qed.

Lemma mapM_newFile_unreadable (pre post : list (string * JsVal))
    (name : string) (bad : JsVal) (w : World) :
  Forall (fun e => readable (snd e)) pre ->
  bad = JNull \/ bad = JUndefined ->
  mapM newFile (pre ++ (name, bad) :: post) w
  = (Throw (TypeError_reading bad "renamed"), advance (List.length pre + 1) w).
Proof.
  intros Hpre Hbad. revert w.
  induction Hpre as [ | [n d] pre Hr _ IH]; intros w.
  - cbn [app mapM List.length]. unfold bind at 1.
    rewrite (newFile_unreadable name bad w Hbad). reflexivity.
  - cbn [app mapM List.length]. unfold bind at 1.
    rewrite (newFile_readable n d w Hr). unfold bind at 1.
    rewrite IH, advance_advance.
    replace (List.length pre + 1 + 1) with (S (List.length pre) + 1) by lia.
    reflexivity.
Qed.

Lemma renamed_entries_length (clock rng : nat -> float) (entries : list (string * JsVal)) :
  forall i j, List.length (renamed_entries clock rng i j entries) = List.length entries.
Proof.
  induction entries as [ | [n d] entries IH]; intros i j; cbn; [ | rewrite IH]; reflexivity.
Qed.

Lemma indexed_length {B : Type} (l : list B) : forall i, List.length (indexed i l) = List.length l.
Proof.
  induction l as [ | b l IH]; intros i; cbn; [ | rewrite IH]; reflexivity.
Qed.

Lemma indexed_readable (l : list JsVal) :
  Forall readable l -> forall i, Forall (fun e => readable (snd e)) (indexed i l).
Proof.
  induction 1 as [ | v l Hv _ IH]; intros i; cbn; constructor; [exact Hv | apply IH].
Qed.

Lemma list_ascii_length (s : string) :
  List.length (list_ascii_of_string s) = String.length s.
Proof.
  induction s as [ | c s IH]; cbn; [ | rewrite IH]; reflexivity.
Qed.

Lemma utf16_length_ascii (s : string) :
  Forall (fun c => (N_of_ascii c < 128)%N) (list_ascii_of_string s) ->
  utf16_length s = String.length s.
Proof.
  unfold utf16_length. rewrite <- list_ascii_length.
  induction 1 as [ | c l Hc _ IH]; [reflexivity | ].
  cbn [code_units].
  replace (N_of_ascii c <? 192)%N with true by (symmetry; apply N.ltb_lt; lia).
  cbn [List.length]. rewrite IH. reflexivity.
Qed.

(** The euro sign is one code unit on three bytes, a character beyond U+FFFF
    two code units on four. *)
Remark utf16_length_examples :
  utf16_length "€" = 1 /\ String.length "€" = 3 /\ utf16_length "😀" = 2 /\
  utf16_length "a€b" = 3.
Proof. repeat split. Qed.

Lemma submission_loading_false (settled : Settled) (w : World) :
  loading (state (exec (onDrop_settle settled) w)) = false.
Proof.
  unfold exec. rewrite onDrop_settle_world. destruct settled as [data | err].
  - destruct (ingest data w) as [[newFiles | e] w']; reflexivity.
  - reflexivity.
Qed.

(** X10. A response is ingested whole or not at all.  When its body can be
    walked and every entry can be read, all its records are appended and the
    error is left as it was.  When the body is [null], or when one entry is
    [null], nothing is appended, not even the records of the entries before
    the bad one, and the message names the failed read.  A body that is a
    text yields one record per UTF-16 code unit of the text (per character
    for a text in ASCII), without an error.  In every case [loading] ends
    false. *)
Theorem ingestion_is_all_or_nothing (w : World) (data : JsVal) :
  let w' := exec (onDrop_settle (Fulfilled data)) w in
  loading (state w') = false /\
  (forall entries,
     Object_entries data = Normal entries ->
     Forall (fun e => readable (snd e)) entries ->
     files (state w')
     = files (state w) ++ renamed_entries (Date_now w) (Math_random w)
                                          (now_calls w) (random_calls w) entries /\
     error (state w') = error (state w)) /\
  (data = JNull \/ data = JUndefined ->
     files (state w') = files (state w) /\
     error (state w')
     = Some "Classification failed: Cannot convert undefined or null to object") /\
  (forall pre name bad post,
     Object_entries data = Normal (pre ++ (name, bad) :: post) ->
     Forall (fun e => readable (snd e)) pre ->
     bad = JNull \/ bad = JUndefined ->
     files (state w') = files (state w) /\
     error (state w')
     = Some (String.append "Classification failed: "
                           (message (TypeError_reading bad "renamed")))) /\
  (forall s,
     data = JStr s ->
     List.length (files (state w')) = List.length (files (state w)) + utf16_length s /\
     error (state w') = error (state w) /\
     (Forall (fun c => (N_of_ascii c < 128)%N) (list_ascii_of_string s) ->
      utf16_length s = String.length s)).
Proof.
  cbv zeta.
  assert (Hok : forall entries,
             Object_entries data = Normal entries ->
             Forall (fun e => readable (snd e)) entries ->
             files (state (exec (onDrop_settle (Fulfilled data)) w))
             = files (state w) ++ renamed_entries (Date_now w) (Math_random w)
                                                  (now_calls w) (random_calls w) entries /\
             error (state (exec (onDrop_settle (Fulfilled data)) w)) = error (state w)).
  { intros entries Hentries Hreadable. unfold exec.
    rewrite (onDrop_settle_readable data entries w Hentries Hreadable).
    split; reflexivity. }
  split; [ | split; [exact Hok | split; [ | split ] ] ].
  - pose proof (submission_loading_false (Fulfilled data) w) as H. exact H.
  - intros [-> | ->]; split; reflexivity.
  - intros pre name bad post Hentries Hpre Hbad. unfold exec.
    rewrite onDrop_settle_world. unfold ingest, bind, lift.
    rewrite Hentries, (mapM_newFile_unreadable pre post name bad w Hpre Hbad).
    destruct Hbad as [-> | ->]; split; reflexivity.
  - intros s ->.
    assert (Hreadable : Forall (fun e => readable (snd e))
               (indexed 0 (map JStr (code_units (list_ascii_of_string s))))).
    { apply indexed_readable. apply Forall_map. rewrite Forall_forall.
      intros c _. split; discriminate. }
    destruct (Hok _ eq_refl Hreadable) as [Hfiles Herror].
    split; [ | split; [exact Herror | apply utf16_length_ascii] ].
    rewrite Hfiles, length_app, renamed_entries_length, indexed_length, length_map.
    reflexivity.
Qed.

Lemma ingestion_is_all_or_nothing_witness :
  let data := JObj [("a.pdf", JObj [("category", JStr "ID")]); ("b.png", JNull)] in
  let w' := exec (onDrop_settle (Fulfilled data)) (mount same_millisecond close_draws) in
  files (state w') = [] /\
  error (state w')
  = Some "Classification failed: Cannot read properties of null (reading 'renamed')".
Proof.
  intros data w'.
  destruct (ingestion_is_all_or_nothing (mount same_millisecond close_draws) data)
    as (_ & _ & _ & Hbad & _).
  apply (Hbad [("a.pdf", JObj [("category", JStr "ID")])] "b.png" JNull []).
  - reflexivity.
  - repeat constructor; discriminate.
  - left. reflexivity.
Defined.

Lemma clicks_only_shrink_witness :
  let w := mkWorld (mkState three_files false None None) []
                   same_millisecond 0 close_draws 0 in
  ids_distinct (files (state w)) = true /\
  ids_distinct (files (state (exec (handle_all [ClickRemove 2; ClickDismissError]) w))) = true.
Proof.
  intros w.
  assert (Hd : ids_distinct (files (state w)) = true) by reflexivity.
  split; [exact Hd | ].
  apply (clicks_only_shrink [ClickRemove 2; ClickDismissError] w). exact Hd.
Defined.

(** X11. Two submissions in flight at once are appended in the order their
    responses arrive, not the order they were sent.  As soon as the first
    response is handled [loading] is false, though the other request is
    still unanswered; and when one of the two fails and the other succeeds
    afterwards, the success leaves the failure's message in place. *)
Theorem overlapping_submissions
    (w : World) (first second : list FileBlob)
    (data1 data2 : JsVal) (entries1 entries2 : list (string * JsVal)) (err1 : JsError) :
  Object_entries data1 = Normal entries1 ->
  Forall (fun e => readable (snd e)) entries1 ->
  Object_entries data2 = Normal entries2 ->
  Forall (fun e => readable (snd e)) entries2 ->
  let sent := exec (onDrop_send second) (exec (onDrop_send first) w) in
  let second_back := exec (onDrop_settle (Fulfilled data2)) sent in
  let both_back := exec (onDrop_settle (Fulfilled data1)) second_back in
  let first_failed := exec (onDrop_settle (Rejected err1)) sent in
  requests sent = requests w ++ [classify_request first; classify_request second] /\
  loading (state sent) = true /\
  loading (state second_back) = false /\
  map originalName (files (state both_back))
  = map originalName (files (state w)) ++ map fst entries2 ++ map fst entries1 /\
  error (state (exec (onDrop_settle (Fulfilled data2)) first_failed))
  = Some (user_message (gateway_error err1)).
Proof.
  intros H1 Hr1 H2 Hr2. cbv zeta. unfold exec.
  rewrite !onDrop_send_world. cbn [snd].
  set (sent := mkWorld _ _ _ _ _ _).
  split; [unfold sent; cbn [requests]; rewrite <- app_assoc; reflexivity | ].
  split; [reflexivity | ].
  split.
  { rewrite (onDrop_settle_readable data2 entries2 sent H2 Hr2). reflexivity. }
  split.
  { rewrite (onDrop_settle_readable data2 entries2 sent H2 Hr2). cbn [snd].
    rewrite (onDrop_settle_readable data1 entries1 _ H1 Hr1).
    unfold appended, advance, with_state. cbn [snd state files].
    rewrite !map_app, !renamed_entries_names, app_assoc. reflexivity. }
  rewrite (onDrop_settle_world (Rejected err1) sent). cbn [snd].
  rewrite (onDrop_settle_readable data2 entries2 _ H2 Hr2). reflexivity.
Qed.

Lemma overlapping_submissions_witness :
  let w := mount same_millisecond close_draws in
  let data1 := JObj [("a.pdf", JObj [("category", JStr "ID")])] in
  let data2 := JObj [("b.png", JObj [("category", JStr "Income")])] in
  let sent := exec (onDrop_send [b_png]) (exec (onDrop_send [a_pdf]) w) in
  Forall (fun e => readable (snd e)) [("a.pdf", JObj [("category", JStr "ID")])] /\
  Forall (fun e => readable (snd e)) [("b.png", JObj [("category", JStr "Income")])] /\
  map originalName
      (files (state (exec (onDrop_settle (Fulfilled data1))
                          (exec (onDrop_settle (Fulfilled data2)) sent))))
  = ["b.png"; "a.pdf"].
Proof.
  intros w data1 data2 sent.
  assert (Hr1 : Forall (fun e => readable (snd e)) [("a.pdf", JObj [("category", JStr "ID")])])
    by (repeat constructor; discriminate).
  assert (Hr2 : Forall (fun e => readable (snd e))
                       [("b.png", JObj [("category", JStr "Income")])])
    by (repeat constructor; discriminate).
  split; [exact Hr1 | split; [exact Hr2 | ] ].
  destruct (overlapping_submissions w [a_pdf] [b_png] data1 data2 _ _ timeout_error
              eq_refl Hr1 eq_refl Hr2) as (_ & _ & _ & Hnames & _).
  exact Hnames.
Defined.

(** ** The two variants of the component *)

Lemma readable_or_not (data : JsVal) :
  readable data \/ data = JNull \/ data = JUndefined.
Proof.
  destruct data; try (left; split; discriminate); right; [right | left]; reflexivity.
Qed.

Lemma simple_newFile_readable (name : string) (data : JsVal) (fid : float) :
  readable data ->
  Simple.newFile (name, data) = Normal (shared_fields (renamed_entry fid name data)).
Proof.
  intros Hr. unfold Simple.newFile. rewrite !(Get_readable data _ Hr). reflexivity.
Qed.

Lemma simple_newFile_unreadable (name : string) (data : JsVal) :
  data = JNull \/ data = JUndefined ->
  exists e, Simple.newFile (name, data) = Throw e.
Proof.
  intros [-> | ->]; eexists; reflexivity.
Qed.

(** The two callbacks succeed on the same entries, and then agree on the
    shared fields. *)
Lemma mapM_newFile_simple (entries : list (string * JsVal)) :
  forall w : World,
    match fst (mapM newFile entries w) with
    | Normal fs => map_throwing Simple.newFile entries = Normal (map shared_fields fs)
    | Throw _ => exists e, map_throwing Simple.newFile entries = Throw e
    end.
Proof.
  induction entries as [ | [name data] entries IH]; intros w.
  - reflexivity.
  - cbn [mapM map_throwing]. unfold bind at 1.
    destruct (readable_or_not data) as [Hr | Hbad].
    + rewrite (newFile_readable name data w Hr).
      rewrite (simple_newFile_readable name data
                 (PrimFloat.add (Date_now w (now_calls w)) (Math_random w (random_calls w)))
                 Hr).
      cbn [and_then]. unfold bind at 1. specialize (IH (advance 1 w)).
      destruct (mapM newFile entries (advance 1 w)) as [[fs | e] w2]; cbn [fst] in *.
      * rewrite IH. reflexivity.
      * destruct IH as [e' ->]. exists e'. reflexivity.
    + rewrite (newFile_unreadable name data w Hbad). cbn [fst].
      destruct (simple_newFile_unreadable name data Hbad) as [e ->].
      exists e. reflexivity.
Qed.

(** One submission, settled the same way in both variants. *)
Lemma onDrop_simulated
    (w : World) (ws : Simple.World) (acceptedFiles : list FileBlob) (settled : Settled) :
  map shared_fields (files (state w)) = Simple.files (Simple.state ws) ->
  let w' := exec (onDrop acceptedFiles settled) w in
  let ws' := Simple.onDrop acceptedFiles settled ws in
  map shared_fields (files (state w')) = Simple.files (Simple.state ws') /\
  loading (state w') = Simple.loading (Simple.state ws') /\
  (exists r rs,
     requests w' = requests w ++ [r] /\
     Simple.requests ws' = Simple.requests ws ++ [rs] /\
     request_parts r = simple_request_parts rs) /\
  (error (state w') <> None ->
   Simple.state ws' = Simple.mkState (Simple.files (Simple.state ws)) false).
Proof.
  intros Hagree. cbv zeta.
  unfold exec, onDrop, bind. rewrite onDrop_send_world.
  set (w1 := mkWorld _ _ _ _ _ _).
  rewrite onDrop_settle_world.
  unfold Simple.onDrop, Simple.onDrop_settle, Simple.onDrop_send.
  cbn [Simple.state Simple.files Simple.requests Simple.loading].
  destruct settled as [data | err].
  - unfold ingest, bind, lift.
    destruct (Object_entries data) as [entries | e]; cbn [and_then].
    + pose proof (mapM_newFile_simple entries w1) as Hsim.
      pose proof (mapM_newFile_state entries w1) as Hst.
      pose proof (mapM_newFile_requests entries w1) as Hreq.
      destruct (mapM newFile entries w1) as [[fs | e] w2]; cbn [fst snd] in *.
      * rewrite Hsim.
        cbn [Simple.state Simple.files Simple.requests Simple.loading].
        unfold appended, with_state. cbn [state files loading error requests].
        rewrite Hst, Hreq. unfold w1. cbn [state files loading error requests].
        split; [rewrite map_app, Hagree; reflexivity | ].
        split; [reflexivity | ].
        split; [ | intros H; contradiction H; reflexivity].
        eexists. eexists. split; [reflexivity | split; reflexivity].
      * destruct Hsim as [e' ->].
        cbn [Simple.state Simple.files Simple.requests Simple.loading].
        unfold failed, with_state. cbn [state files loading error requests].
        rewrite Hst, Hreq. unfold w1. cbn [state files loading error requests].
        split; [exact Hagree | ].
        split; [reflexivity | ].
        split; [ | intros _; reflexivity].
        eexists. eexists. split; [reflexivity | split; reflexivity].
    + cbn [snd fst Simple.state Simple.files Simple.requests Simple.loading].
      unfold failed, with_state, w1. cbn [state files loading error requests].
      split; [exact Hagree | ].
      split; [reflexivity | ].
      split; [ | intros _; reflexivity].
      eexists. eexists. split; [reflexivity | split; reflexivity].
  - cbn [snd fst Simple.state Simple.files Simple.requests Simple.loading].
    unfold failed, with_state, w1. cbn [state files loading error requests].
    split; [exact Hagree | ].
    split; [reflexivity | ].
    split; [ | intros _; reflexivity].
    eexists. eexists. split; [reflexivity | split; reflexivity].
Qed.

Lemma onDrop_returns (acceptedFiles : list FileBlob) (settled : Settled) (w : World) :
  fst (onDrop acceptedFiles settled w) = Normal tt.
Proof.
  unfold onDrop, bind. rewrite onDrop_send_world, onDrop_settle_world.
  destruct settled as [data | err]; [ | reflexivity].
  destruct (ingest data _) as [[newFiles | e] w']; reflexivity.
Qed.

(** X12. The simpler variant is the component without its additions: started
    from collections that agree on the five shared fields, with the same
    [loading] and requests of the same address, form and content type, any
    sequence of submissions settled the same way leaves them agreeing again.
    What the simpler variant lacks is any trace of a failure: whenever the
    component shows an error after a submission, the simpler variant's state
    is its state before with [loading] false. *)
Theorem variants_agree :
  (forall (drops : list (list FileBlob * Settled)) (w : World) (ws : Simple.World),
     map shared_fields (files (state w)) = Simple.files (Simple.state ws) ->
     loading (state w) = Simple.loading (Simple.state ws) ->
     map request_parts (requests w) = map simple_request_parts (Simple.requests ws) ->
     let w' := exec (onDrop_all drops) w in
     let ws' := Simple.onDrop_all drops ws in
     map shared_fields (files (state w')) = Simple.files (Simple.state ws') /\
     loading (state w') = Simple.loading (Simple.state ws') /\
     map request_parts (requests w') = map simple_request_parts (Simple.requests ws')) /\
  (forall (w : World) (ws : Simple.World) (acceptedFiles : list FileBlob) (settled : Settled),
     error (state (exec (onDrop acceptedFiles settled) w)) <> None ->
     Simple.state (Simple.onDrop acceptedFiles settled ws)
     = Simple.mkState (Simple.files (Simple.state ws)) false /\
     files (state (exec (onDrop acceptedFiles settled) w)) = files (state w)).
Proof.
  split.
  - induction drops as [ | [acceptedFiles settled] drops IH]; intros w ws Hf Hl Hr.
    + cbn. split; [exact Hf | split; [exact Hl | exact Hr] ].
    + cbv zeta. cbn [onDrop_all Simple.onDrop_all]. rewrite exec_bind.
      pose proof (onDrop_returns acceptedFiles settled w) as Hret.
      pose proof (onDrop_simulated w ws acceptedFiles settled Hf)
        as (Hf' & Hl' & (r & rs & Hreq & Hreqs & Hparts) & _).
      unfold exec in Hf', Hl', Hreq.
      destruct (onDrop acceptedFiles settled w) as [[[] | e] w1]; cbn [fst snd] in *;
        [ | discriminate Hret].
      apply IH; [exact Hf' | exact Hl' | ].
      rewrite Hreq, Hreqs, !map_app, Hr. cbn [map]. rewrite Hparts. reflexivity.
  - intros w ws acceptedFiles settled Herr.
    split.
    + unfold Simple.onDrop, Simple.onDrop_settle, Simple.onDrop_send.
      cbn [Simple.state Simple.files Simple.requests Simple.loading].
      revert Herr. unfold exec, onDrop, bind. rewrite onDrop_send_world.
      set (w1 := mkWorld _ _ _ _ _ _). rewrite onDrop_settle_world.
      destruct settled as [data | err]; [ | reflexivity].
      unfold ingest, bind, lift.
      destruct (Object_entries data) as [entries | e]; cbn [and_then]; [ | reflexivity].
      pose proof (mapM_newFile_simple entries w1) as Hsim.
      pose proof (mapM_newFile_state entries w1) as Hst.
      destruct (mapM newFile entries w1) as [[fs | e] w2]; cbn [fst snd] in *.
      * unfold appended, with_state. cbn [state error]. rewrite Hst.
        intros H. contradiction H. reflexivity.
      * destruct Hsim as [e' ->]. reflexivity.
    + revert Herr. unfold exec, onDrop, bind. rewrite onDrop_send_world.
      set (w1 := mkWorld _ _ _ _ _ _). rewrite onDrop_settle_world.
      destruct settled as [data | err]; [ | reflexivity].
      pose proof (ingest_state data w1) as Hst.
      destruct (ingest data w1) as [[newFiles | e] w2]; cbn [fst snd] in *.
      * unfold appended, with_state. cbn [state error]. rewrite Hst.
        intros H. contradiction H. reflexivity.
      * intros _. unfold failed, with_state. cbn [state files]. rewrite Hst. reflexivity.
Qed.

Lemma variants_agree_witness :
  let drops := [ ([a_pdf; b_png], Fulfilled (JObj scenario_response));
                 ([a_pdf], Rejected timeout_error) ] in
  let w' := exec (onDrop_all drops) (mount same_millisecond close_draws) in
  let ws' := Simple.onDrop_all drops Simple.mount in
  map shared_fields (files (state w')) = Simple.files (Simple.state ws') /\
  map Simple.originalName (Simple.files (Simple.state ws')) = ["a.pdf"; "b.png"].
Proof.
  intros drops w' ws'.
  destruct variants_agree as (Hseq & _).
  destruct (Hseq drops (mount same_millisecond close_draws) Simple.mount
              eq_refl eq_refl eq_refl) as (Hfiles & _).
  split; [exact Hfiles | reflexivity].
Defined.

Section GroupingCommutes.

Variable Number_toString : float -> string.
Variables A B : Type.
Variable h : A -> B.
Variable category_A : A -> JsVal.
Variable category_B : B -> JsVal.
Hypothesis same_category : forall a, category_B (h a) = category_A a.

Lemma slot_map_groups (acc : list (string * list A)) (k : string) :
  slot B (map_groups h acc) k
  = match slot A acc k with
    | OwnArray arr => OwnArray (map h arr)
    | InheritedMember => InheritedMember
    | NoProperty => NoProperty
    end.
Proof.
  unfold slot.
  assert (Hfind : find (fun p => String.eqb (fst p) k) (map_groups h acc)
                  = option_map (fun entry => (fst entry, map h (snd entry)))
                               (find (fun p => String.eqb (fst p) k) acc)).
  { unfold map_groups. induction acc as [ | [k' arr] acc IH]; cbn; [reflexivity | ].
    destruct (String.eqb k' k); [reflexivity | exact IH]. }
  rewrite Hfind.
  destruct (find (fun p => String.eqb (fst p) k) acc) as [p | ]; cbn [option_map fst snd];
    [reflexivity | ].
  destruct (inherited k); reflexivity.
Qed.

Lemma push_own_map_groups (acc : list (string * list A)) (k : string) (a : A) :
  push_own B k (h a) (map_groups h acc) = map_groups h (push_own A k a acc).
Proof.
  unfold map_groups. induction acc as [ | [k' arr] acc IH]; cbn; [reflexivity | ].
  destruct (String.eqb k' k); cbn.
  - rewrite map_app. reflexivity.
  - rewrite IH. reflexivity.
Qed.

Lemma group_step_map_groups (acc : list (string * list A)) (a : A) :
  group_step Number_toString B category_B (map_groups h acc) (h a)
  = match group_step Number_toString A category_A acc a with
    | Normal acc' => Normal (map_groups h acc')
    | Throw e => Throw e
    end.
Proof.
  unfold group_step. rewrite same_category.
  destruct (ToPropertyKey Number_toString (category_A a)) as [k | e]; [ | reflexivity].
  cbv zeta. rewrite slot_map_groups.
  destruct (slot A acc k) as [arr | | ] eqn:Hslot.
  - rewrite slot_map_groups, Hslot, push_own_map_groups. reflexivity.
  - rewrite slot_map_groups, Hslot. reflexivity.
  - replace (map_groups h acc ++ [(k, [])]) with (map_groups h (acc ++ [(k, [])]))
      by (unfold map_groups; rewrite map_app; reflexivity).
    rewrite slot_map_groups.
    destruct (slot A (acc ++ [(k, [])]) k); [ | reflexivity | reflexivity].
    rewrite push_own_map_groups. reflexivity.
Qed.

Lemma reduce_map_groups (l : list A) :
  forall acc : list (string * list A),
    reduce Number_toString B category_B (map h l) (map_groups h acc)
    = match reduce Number_toString A category_A l acc with
      | Normal g => Normal (map_groups h g)
      | Throw e => Throw e
      end.
Proof.
  induction l as [ | a l IH]; intros acc; cbn [map reduce].
  - reflexivity.
  - rewrite group_step_map_groups.
    destruct (group_step Number_toString A category_A acc a) as [acc' | e];
      [apply IH | reflexivity].
Qed.

Lemma grouped_by_map (l : list A) :
  grouped_by Number_toString B category_B (map h l)
  = match grouped_by Number_toString A category_A l with
    | Normal g => Normal (map_groups h g)
    | Throw e => Throw e
    end.
Proof. exact (reduce_map_groups l []). Qed.

End GroupingCommutes.

(** X13. The two variants group alike: the grouping of the simpler variant's
    collection is the grouping of the component's collection with each
    record cut down to the five shared fields, the same keys in the same
    order with the same records in the same order, and it throws exactly
    when the component's grouping throws. *)
Theorem variants_group_alike (Number_toString : float -> string) (l : list File) :
  Simple.grouped Number_toString (map shared_fields l)
  = match grouped Number_toString l with
    | Normal g => Normal (map_groups shared_fields g)
    | Throw e => Throw e
    end.
Proof.
  apply (grouped_by_map Number_toString File Simple.File shared_fields
                        category Simple.category).
  intros f. reflexivity.
Qed.

(** ** Invariants of the collection *)

Lemma renamed_entry_built (fid : float) (name : string) (data : JsVal) :
  built_by_onDrop (renamed_entry fid name data).
Proof.
  unfold built_by_onDrop, renamed_entry. cbn [metadata hasError fileError].
  split; [ | reflexivity].
  destruct (truthy (OptGet data "metadata")) eqn:E; [ | discriminate].
  intros H. rewrite H in E. discriminate E.
Qed.

Lemma mapM_newFile_built (entries : list (string * JsVal)) :
  forall (w : World) (fs : list File),
    fst (mapM newFile entries w) = Normal fs -> Forall built_by_onDrop fs.
Proof.
  induction entries as [ | [name data] entries IH]; intros w fs.
  - cbn. intros [= <-]. constructor.
  - cbn [mapM]. unfold bind at 1.
    destruct (readable_or_not data) as [Hr | Hbad].
    + rewrite (newFile_readable name data w Hr). unfold bind at 1.
      specialize (IH (advance 1 w)).
      destruct (mapM newFile entries (advance 1 w)) as [[fs' | e] w2]; cbn [fst] in *;
        [ | discriminate].
      intros [= <-]. constructor; [apply renamed_entry_built | apply IH; reflexivity].
    + rewrite (newFile_unreadable name data w Hbad). discriminate.
Qed.

Lemma Forall_subsequence {B : Type} (P : B -> Prop) (l' l : list B) :
  subsequence l' l -> Forall P l -> Forall P l'.
Proof.
  intros Hsub Hall. rewrite Forall_forall in Hall |- *.
  intros b Hb. apply Hall. apply (subsequence_in _ _ Hsub). exact Hb.
Qed.

(** X14. Two facts hold of every record of the collection, from the mounting
    of the component on, whatever is submitted, however it settles and
    whatever is clicked: its metadata is a value, so that the export always
    has a member metadata for it, and its [hasError] is the truthiness of its
    [error], so that the red icon is shown exactly for the records whose
    [error] is truthy. *)
Theorem collection_invariants (w : World) :
  Forall built_by_onDrop (files (state w)) ->
  (forall acceptedFiles,
     Forall built_by_onDrop (files (state (exec (onDrop_send acceptedFiles) w)))) /\
  (forall settled,
     Forall built_by_onDrop (files (state (exec (onDrop_settle settled) w)))) /\
  (forall evs,
     Forall built_by_onDrop (files (state (exec (handle_all evs) w)))) /\
  (forall f, In f (files (state w)) ->
     In "metadata" (member_names (exported f)) /\
     (getValidationIcon f = AlertCircle_red <-> truthy (fileError f) = true)).
Proof.
  intros Hw.
  split; [intros acceptedFiles; exact Hw | ].
  split.
  { intros settled. unfold exec. rewrite onDrop_settle_world.
    destruct settled as [data | err]; [ | exact Hw].
    pose proof (ingest_state data w) as Hst.
    assert (Hbuilt : forall fs, fst (ingest data w) = Normal fs -> Forall built_by_onDrop fs).
    { unfold ingest, bind, lift.
      destruct (Object_entries data) as [entries | e]; [ | discriminate].
      apply mapM_newFile_built. }
    destruct (ingest data w) as [[newFiles | e] w']; cbn [fst snd] in *.
    - unfold appended, with_state. cbn [state files]. rewrite Hst.
      apply Forall_app. split; [exact Hw | apply Hbuilt; reflexivity].
    - unfold failed, with_state. cbn [state files]. rewrite Hst. exact Hw. }
  split.
  { intros evs. revert w Hw. induction evs as [ | ev evs IH]; intros w Hw.
    - exact Hw.
    - cbn [handle_all]. rewrite exec_bind.
      pose proof (handle_returns ev w) as Hret.
      pose proof (handle_shrinks ev w) as (Hsub & _).
      unfold exec in Hsub.
      destruct (handle ev w) as [[[] | e] w1]; cbn [fst snd] in *; [ | discriminate Hret].
      apply IH. apply (Forall_subsequence _ _ _ Hsub Hw). }
  intros f Hf. rewrite Forall_forall in Hw. destruct (Hw f Hf) as [Hmeta Herr].
  split.
  - apply member_names_exported. do 4 right. left. split; [reflexivity | exact Hmeta].
  - rewrite getValidationIcon_cases, <- Herr.
    destruct (hasError f); [split; reflexivity | ].
    split; [ | discriminate].
    destruct (truthy (OptGet (idValidation f) "is_valid")
              || truthy (OptGet (dateValidation f) "is_valid"));
      [discriminate | ].
    destruct (strict_eq_false (OptGet (idValidation f) "is_valid")
              || strict_eq_false (OptGet (dateValidation f) "is_valid")); discriminate.
Qed.

Lemma collection_invariants_witness :
  let w := mount same_millisecond close_draws in
  Forall built_by_onDrop (files (state w)) /\
  Forall built_by_onDrop
         (files (state (exec (onDrop_settle (Fulfilled (JObj scenario_response))) w))).
Proof.
  intros w.
  assert (Hw : Forall built_by_onDrop (files (state w))) by constructor.
  split; [exact Hw | ].
  apply (collection_invariants w Hw).
Defined.

(** ** A submission among others *)

Lemma onDrop_settle_returns (settled : Settled) (w : World) :
  fst (onDrop_settle settled w) = Normal tt.
Proof.
  rewrite onDrop_settle_world. destruct settled as [data | err]; [ | reflexivity].
  destruct (ingest data w) as [[newFiles | e] w']; reflexivity.
Qed.

Lemma perform_returns (e : Event) (w : World) : fst (perform e w) = Normal tt.
Proof.
  destruct e as [ev | acceptedFiles | settled]; cbn [perform].
  - apply handle_returns.
  - reflexivity.
  - apply onDrop_settle_returns.
Qed.

Lemma exec_perform_all_cons (e : Event) (es : list Event) (w : World) :
  exec (perform_all (e :: es)) w = exec (perform_all es) (exec (perform e) w).
Proof.
  cbn [perform_all]. rewrite exec_bind.
  pose proof (perform_returns e w) as Hret. unfold exec.
  destruct (perform e w) as [[[] | err] w1]; cbn [fst snd] in *;
    [reflexivity | discriminate Hret].
Qed.

Lemma handle_error (ev : UiEvent) (w : World) :
  error (state (exec (handle ev) w)) = error (state w) \/
  error (state (exec (handle ev) w)) = None.
Proof. destruct ev; cbn; tauto. Qed.

(** An event that is no failure leaves no error where there was none. *)
Lemma perform_keeps_no_error (e : Event) (w : World) :
  harmless e -> error (state w) = None -> error (state (exec (perform e) w)) = None.
Proof.
  destruct e as [ev | acceptedFiles | [data | err]]; cbn [perform harmless]; intros Hh Hw.
  - apply handle_keeps_no_error. exact Hw.
  - reflexivity.
  - destruct Hh as (entries & Hentries & Hreadable). unfold exec.
    rewrite (onDrop_settle_readable data entries w Hentries Hreadable). exact Hw.
  - contradiction.
Qed.

(** Whatever happens, the state holds no message or the message of a
    failure. *)
Lemma perform_error (e : Event) (w : World) :
  (error (state w) = None \/
   exists err, error (state w) = Some (user_message (gateway_error err))) ->
  error (state (exec (perform e) w)) = None \/
  exists err, error (state (exec (perform e) w)) = Some (user_message (gateway_error err)).
Proof.
  intros Hw. destruct e as [ev | acceptedFiles | settled]; cbn [perform].
  - destruct (handle_error ev w) as [-> | ->]; [exact Hw | left; reflexivity].
  - left. reflexivity.
  - destruct (onDrop_settle_error settled w) as [-> | [err ->]];
      [exact Hw | right; exists err; reflexivity].
Qed.

Lemma perform_all_keeps_no_error (es : list Event) :
  forall w : World,
    Forall harmless es -> error (state w) = None ->
    error (state (exec (perform_all es) w)) = None.
Proof.
  induction es as [ | e es IH]; intros w Hall Hw.
  - exact Hw.
  - inversion Hall as [ | ? ? He Hes]; subst.
    rewrite exec_perform_all_cons. apply IH; [exact Hes | ].
    apply perform_keeps_no_error; assumption.
Qed.

Lemma perform_all_error (es : list Event) :
  forall w : World,
    (error (state w) = None \/
     exists err, error (state w) = Some (user_message (gateway_error err))) ->
    error (state (exec (perform_all es) w)) = None \/
    exists err, error (state (exec (perform_all es) w))
                = Some (user_message (gateway_error err)).
Proof.
  induction es as [ | e es IH]; intros w Hw.
  - exact Hw.
  - rewrite exec_perform_all_cons. apply IH, perform_error, Hw.
Qed.

(** C5 (as amended). A submission is sent, then anything may happen (clicks,
    other submissions sent, other submissions settling), then it settles.
    On failure (a rejection, a body that cannot be walked, an entry that
    cannot be read) the collection is left as it was just before and the
    message of this failure becomes the error, whatever the error was.  On
    success the records of the response are appended, in the order of the
    response, and the error is left as it was just before: sending cleared
    it and no click sets one, so no error is shown unless another submission
    failed in the meantime, and then it is that failure's message that stays.
    The state holds one message at most ([error] is a single optional
    string), and [loading] ends false. *)
Theorem submission_outcome
    (w : World) (acceptedFiles : list FileBlob) (between : list Event) (settled : Settled) :
  let w1 := exec (onDrop_send acceptedFiles) w in
  let w2 := exec (perform_all between) w1 in
  let w3 := exec (onDrop_settle settled) w2 in
  loading (state w3) = false /\
  (forall err,
     settled = Rejected err ->
     files (state w3) = files (state w2) /\
     error (state w3) = Some (user_message (gateway_error err))) /\
  (forall entries,
     settled = Fulfilled (JObj entries) ->
     Forall (fun e => readable (snd e)) entries ->
     files (state w3)
     = files (state w2) ++ renamed_entries (Date_now w2) (Math_random w2)
                                           (now_calls w2) (random_calls w2) entries /\
     map originalName (files (state w3))
     = map originalName (files (state w2)) ++ map fst entries /\
     error (state w3) = error (state w2)) /\
  (forall data entries,
     settled = Fulfilled data ->
     Object_entries data = Normal entries ->
     Forall (fun e => readable (snd e)) entries ->
     files (state w3)
     = files (state w2) ++ renamed_entries (Date_now w2) (Math_random w2)
                                           (now_calls w2) (random_calls w2) entries /\
     error (state w3) = error (state w2)) /\
  (forall data pre name bad post,
     settled = Fulfilled data ->
     Object_entries data = Normal (pre ++ (name, bad) :: post) ->
     Forall (fun e => readable (snd e)) pre ->
     bad = JNull \/ bad = JUndefined ->
     files (state w3) = files (state w2) /\
     error (state w3)
     = Some (user_message (Other (message (TypeError_reading bad "renamed"))))) /\
  (settled = Fulfilled JNull \/ settled = Fulfilled JUndefined ->
     files (state w3) = files (state w2) /\
     error (state w3)
     = Some (user_message (Other "Cannot convert undefined or null to object"))) /\
  error (state w1) = None /\
  (Forall harmless between -> error (state w2) = None) /\
  (error (state w2) = None \/
   exists err, error (state w2) = Some (user_message (gateway_error err))).
Proof.
  cbv zeta.
  set (w1 := exec (onDrop_send acceptedFiles) w).
  set (w2 := exec (perform_all between) w1).
  assert (Hsent : error (state w1) = None) by reflexivity.
  assert (Hok : forall data entries,
             Object_entries data = Normal entries ->
             Forall (fun e => readable (snd e)) entries ->
             files (state (exec (onDrop_settle (Fulfilled data)) w2))
             = files (state w2) ++ renamed_entries (Date_now w2) (Math_random w2)
                                                   (now_calls w2) (random_calls w2) entries /\
             error (state (exec (onDrop_settle (Fulfilled data)) w2)) = error (state w2)).
  { intros data entries Hentries Hreadable. unfold exec.
    rewrite (onDrop_settle_readable data entries w2 Hentries Hreadable).
    split; reflexivity. }
  split; [apply submission_loading_false | ].
  split.
  { intros err ->. unfold exec. rewrite onDrop_settle_world. split; reflexivity. }
  split.
  { intros entries -> Hreadable.
    destruct (Hok (JObj entries) entries eq_refl Hreadable) as [Hfiles Herror].
    split; [exact Hfiles | split; [ | exact Herror] ].
    rewrite Hfiles, map_app, renamed_entries_names. reflexivity. }
  split.
  { intros data entries -> Hentries Hreadable. apply Hok; assumption. }
  split.
  { intros data pre name bad post -> Hentries Hpre Hbad. unfold exec.
    rewrite onDrop_settle_world. unfold ingest, bind, lift.
    rewrite Hentries, (mapM_newFile_unreadable pre post name bad w2 Hpre Hbad).
    destruct Hbad as [-> | ->]; split; reflexivity. }
  split.
  { intros [-> | ->]; unfold exec; rewrite onDrop_settle_world; split; reflexivity. }
  split; [exact Hsent | ].
  split.
  { intros Hharmless. apply perform_all_keeps_no_error; assumption. }
  apply perform_all_error. left. exact Hsent.
Qed.

(** A success with nothing failing in between, though another submission
    was sent and came back meanwhile: both responses are in the collection,
    in the order they arrived, and no error is shown. *)
Lemma submission_outcome_witness :
  let w := mount same_millisecond close_draws in
  let between := [ Clicks ClickDismissError; Sends [b_png];
                   Settles (Fulfilled (JObj [("b.png", JObj [("category", JStr "Income")])])) ] in
  let w2 := exec (perform_all between) (exec (onDrop_send [a_pdf]) w) in
  let w3 := exec (onDrop_settle (Fulfilled (JObj [("a.pdf", JObj [("category", JStr "ID")])])))
                 w2 in
  Forall harmless between /\
  Forall (fun e => readable (snd e)) [("a.pdf", JObj [("category", JStr "ID")])] /\
  map originalName (files (state w3)) = ["b.png"; "a.pdf"] /\
  error (state w3) = None.
Proof.
  intros w between w2 w3.
  assert (Hharmless : Forall harmless between).
  { repeat constructor.
    exists [("b.png", JObj [("category", JStr "Income")])].
    split; [reflexivity | repeat constructor; discriminate]. }
  assert (Hreadable : Forall (fun e => readable (snd e))
                             [("a.pdf", JObj [("category", JStr "ID")])])
    by (repeat constructor; discriminate).
  destruct (submission_outcome w [a_pdf] between
              (Fulfilled (JObj [("a.pdf", JObj [("category", JStr "ID")])])))
    as (_ & _ & Hsuccess & _ & _ & _ & _ & Hclean & _).
  destruct (Hsuccess _ eq_refl Hreadable) as (_ & Hnames & Herror).
  split; [exact Hharmless | split; [exact Hreadable | split] ].
  - unfold w3. unfold w2. rewrite Hnames. reflexivity.
  - unfold w3, w2. rewrite Herror. apply Hclean. exact Hharmless.
Defined.

(** Two submissions in flight: the second fails with a 503, then the first
    succeeds.  Its record is appended, and the error of the other is still
    shown after this success. *)
Lemma success_after_overlapping_failure :
  let w := mount same_millisecond close_draws in
  let between := [ Sends [b_png];
                   Settles (Rejected (status_error 503 "ERR_BAD_RESPONSE"
                                        "Request failed with status code 503")) ] in
  let w2 := exec (perform_all between) (exec (onDrop_send [a_pdf]) w) in
  let w3 := exec (onDrop_settle (Fulfilled (JObj [("a.pdf", JObj [("category", JStr "ID")])])))
                 w2 in
  requests w3 = [classify_request [a_pdf]; classify_request [b_png]] /\
  map originalName (files (state w3)) = ["a.pdf"] /\
  error (state w3) = Some "Server error - please check if the backend is running" /\
  error (state w3) <> None.
Proof.
  repeat split. discriminate.
Qed.
